(** * Page objects and login-response validation of playwright-pom-project

    A shallow embedding of the JavaScript sources:
    - [utils/apiHelpers.js]: [validateLoginResponse];
    - [utils/userCredentials.js]: the fixture records and their accessors;
    - [pages/base.page.js], [pages/components/base.component.js],
      [pages/login.page.js], [pages/contact.page.js]: the page objects,
      written as programs over the calls they make to the browser engine.

    JavaScript values are an inductive type, objects are association lists
    in property order, a function that can throw returns a [completion],
    and an [async] method is a tree of engine calls that is run against an
    arbitrary engine. *)

From Stdlib Require Import ZArith List String Ascii Bool Lia DecimalString.
Import ListNotations.
Local Open Scope string_scope.
Local Open Scope Z_scope.

Set Implicit Arguments.
Set Warnings "-register-all".

(* ===================================================================== *)
(** ** JavaScript values *)
(* ===================================================================== *)

Module JS.

(** What a [throw] carries.  [TypeError] is raised by the language itself
    ([in] applied to a primitive, a property read on [null]); the engine
    rejects a timed-out wait with [TimeoutError]; [Error] is everything
    else, with its message. *)
Inductive exn : Type :=
| TypeError
| TimeoutError
| Error (msg : string).

(** The result of evaluating something that may throw; also the state of a
    settled promise (fulfilled with a value, or rejected with a reason). *)
Inductive completion (A : Type) : Type :=
| Returns (a : A)
| Throws (e : exn).

Arguments Returns {A} a.
Arguments Throws {A} e.

Definition bind {A B} (c : completion A) (k : A -> completion B) : completion B :=
  match c with
  | Returns a => k a
  | Throws e => Throws e
  end.

(** Values.  Numbers are the integer-valued ones (status codes, ids, the
    0/1 flags and millisecond time stamps are all the sources compare);
    a string is its sequence of code units below 256.  [VNative name] is
    the built-in found under [name] on [Object.prototype]: it is what a
    property read returns for [toString], [constructor] and the like when
    the object has no such property of its own. *)
Inductive value : Type :=
| VUndefined
| VNull
| VBool (b : bool)
| VNum (n : Z)
| VStr (s : string)
| VArr (items : list value)
| VObj (props : list (string * value))
| VNative (name : string).

(** [!!v]: the values that count as true in a condition. *)
Definition truthy (v : value) : bool :=
  match v with
  | VUndefined | VNull => false
  | VBool b => b
  | VNum n => negb (n =? 0)
  | VStr s => negb (s =? "")%string
  | VArr _ | VObj _ | VNative _ => true
  end.

Definition js_typeof (v : value) : string :=
  match v with
  | VUndefined => "undefined"
  | VNull => "object"
  | VBool _ => "boolean"
  | VNum _ => "number"
  | VStr _ => "string"
  | VArr _ | VObj _ => "object"
  | VNative name => if (name =? "__proto__")%string then "object" else "function"
  end.

(** [a === b].  Two objects are equal only when they are the same object;
    the values compared in the sources come from two separate records (the
    response and the expected user), so two arrays or two objects are
    never the same one. *)
Definition strict_eq (a b : value) : bool :=
  match a, b with
  | VUndefined, VUndefined => true
  | VNull, VNull => true
  | VBool x, VBool y => Bool.eqb x y
  | VNum x, VNum y => x =? y
  | VStr x, VStr y => (x =? y)%string
  | VNative x, VNative y => (x =? y)%string
  | _, _ => false
  end.

(** [Array.prototype.includes] compares with SameValueZero, which on the
    values above is [===]. *)
Definition includes (l : list value) (v : value) : bool :=
  existsb (fun x => strict_eq x v) l.

Definition Z_to_string (z : Z) : string :=
  NilZero.string_of_int (Z.to_int z).

(** [String(v)], as a template literal applies it.  An array joins its
    items with commas, [null] and [undefined] items giving the empty
    string.  (Numbers print in decimal; JavaScript changes to exponent
    notation from 1e21 on.)  An object is printed by the [toString] it
    inherits: an object that has a [toString] or a [valueOf] of its own
    (a JSON body can hold an object whose [toString] is a number) is converted through them,
    and the conversion throws a [TypeError] when neither gives a
    primitive.  That conversion is not modelled; [Verdicts.printable]
    names the values on which this function is the conversion. *)
Fixpoint js_toString (v : value) : string :=
  match v with
  | VUndefined => "undefined"
  | VNull => "null"
  | VBool true => "true"
  | VBool false => "false"
  | VNum n => Z_to_string n
  | VStr s => s
  | VArr items =>
      (fix join (l : list value) : string :=
         match l with
         | [] => ""
         | x :: rest =>
             let item := match x with
                         | VUndefined | VNull => ""
                         | _ => js_toString x
                         end in
             match rest with
             | [] => item
             | _ :: _ => item ++ "," ++ join rest
             end
         end) items
  | VObj _ => "[object Object]"
  | VNative name =>
      if (name =? "__proto__")%string then "[object Object]"
      else "function " ++ name ++ "() { [native code] }"
  end.

(** A parameter that has a default takes it when the argument is
    [undefined]. *)
Definition default_param (arg dflt : value) : value :=
  match arg with VUndefined => dflt | _ => arg end.

(** *** Properties *)

Fixpoint own_property (k : string) (props : list (string * value)) : option value :=
  match props with
  | [] => None
  | (k', v) :: rest => if (k' =? k)%string then Some v else own_property k rest
  end.

(** The property names every object inherits from [Object.prototype]. *)
Definition Object_prototype_names : list string :=
  [ "constructor"; "hasOwnProperty"; "isPrototypeOf"; "propertyIsEnumerable";
    "toLocaleString"; "toString"; "valueOf"; "__proto__";
    "__defineGetter__"; "__defineSetter__"; "__lookupGetter__"; "__lookupSetter__" ].

Definition is_inherited (k : string) : bool :=
  existsb (fun n => (n =? k)%string) Object_prototype_names.

Definition inherited (k : string) : value :=
  if is_inherited k then VNative k else VUndefined.

(** [o[k]] and [o.k].  Reading a property of [null] or [undefined] throws;
    an object answers with its own property, then with what it inherits.
    Arrays, strings, numbers and booleans have further properties of their
    own ([length], indices, their prototypes' methods); no property name
    that the sources read is one of those, and they are left out. *)
Definition js_get (o : value) (k : string) : completion value :=
  match o with
  | VUndefined | VNull => Throws TypeError
  | VObj props =>
      match own_property k props with
      | Some v => Returns v
      | None => Returns (inherited k)
      end
  | _ => Returns (inherited k)
  end.

(** [k in o]: a [TypeError] unless [o] is an object. *)
Definition js_in (k : string) (o : value) : completion bool :=
  match o with
  | VObj props =>
      match own_property k props with
      | Some _ => Returns true
      | None => Returns (is_inherited k)
      end
  | VArr _ | VNative _ => Returns (is_inherited k)
  | _ => Throws TypeError
  end.

(** *** Strings *)

(** White space of [String.prototype.trim] among the code units below 256:
    tab, line feed, vertical tab, form feed, carriage return, space and
    the no-break space. *)
Definition is_white_space (c : ascii) : bool :=
  let n := nat_of_ascii c in
  (((9 <=? n) && (n <=? 13)) || (n =? 32) || (n =? 160))%nat.

Fixpoint trimStart (s : string) : string :=
  match s with
  | EmptyString => EmptyString
  | String c rest => if is_white_space c then trimStart rest else s
  end.

Definition reverse (s : string) : string :=
  string_of_list_ascii (rev (list_ascii_of_string s)).

Definition trim (s : string) : string :=
  reverse (trimStart (reverse (trimStart s))).

(** *** Dates *)

(** [TimeClip]: a time value beyond 8.64e15 ms from the epoch is not a
    date. *)
Definition TimeClip (t : Z) : option Z :=
  if Z.abs t <=? 8640000000000000 then Some t else None.

Section Dates.
(** [Date.parse], which the language leaves to the runtime for all but
    one format: [None] is [NaN]. *)
Variable Date_parse : string -> option Z.

(** [new Date(v).getTime()]: a number is the time value itself, a string
    is parsed, an object is parsed from its string form (for the objects
    that [js_toString] prints: those without a [toString] or a [valueOf]
    of their own). *)
Definition Date_getTime (v : value) : option Z :=
  match v with
  | VUndefined => None
  | VNull => Some 0
  | VBool b => Some (if b then 1 else 0)
  | VNum n => TimeClip n
  | VStr s => Date_parse s
  | VArr _ | VObj _ | VNative _ => Date_parse (js_toString v)
  end.
End Dates.

End JS.

Import JS.

Declare Scope completion_scope.
Delimit Scope completion_scope with completion.
Notation "x <- c ;; k" := (JS.bind c (fun x => k))
  (at level 61, c at next level, right associativity) : completion_scope.

(* ===================================================================== *)
(** ** utils/apiHelpers.js: the login response validator *)
(* ===================================================================== *)

Module ApiHelpers.

Local Open Scope completion_scope.

(** The object [makeApiRequest] builds; the validator reads its [status]
    and its [body]. *)
Record Response : Type := { status : value; body : value }.

(** The [validation] object: created valid and empty, then updated in
    place by each check. *)
Record Validation : Type :=
  { isValid : bool; errors : list string; warnings : list string }.

Definition fresh : Validation :=
  {| isValid := true; errors := []; warnings := [] |}.

(** [validation.isValid = false] *)
Definition set_invalid (v : Validation) : Validation :=
  {| isValid := false; errors := errors v; warnings := warnings v |}.

(** [validation.errors.push(msg)] *)
Definition push_error (msg : string) (v : Validation) : Validation :=
  {| isValid := isValid v; errors := errors v ++ [msg]; warnings := warnings v |}.

(** [validation.warnings.push(msg)] *)
Definition push_warning (msg : string) (v : Validation) : Validation :=
  {| isValid := isValid v; errors := errors v; warnings := warnings v ++ [msg] |}.

(** [fields.forEach(field => ...)] over a callback that may throw. *)
Fixpoint forEach {S : Type} (fields : list string)
    (f : string -> S -> completion S) (s : S) : completion S :=
  match fields with
  | [] => Returns s
  | field :: rest => s' <- f field s ;; forEach rest f s'
  end.

(** The three required-field loops differ in the object searched and in
    the wording of the message:
    [if (!(field in o)) { isValid = false; errors.push(prefix + field) }]. *)
Definition require_fields (prefix : string) (fields : list string) (o : value)
    (validation : Validation) : completion Validation :=
  forEach fields
    (fun field validation =>
       present <- js_in field o ;;
       Returns (if negb present
                then push_error (prefix ++ field) (set_invalid validation)
                else validation))
    validation.

Definition requiredFields : list string := ["success"; "message"; "data"].
Definition dataRequiredFields : list string :=
  ["user"; "access_token"; "access_token_expire_at"].
Definition userRequiredFields : list string :=
  ["id"; "name"; "email"; "is_active"; "created_at"; "updated_at"].

Definition msg_message : string := "Message field should be a non-empty string".
Definition msg_user_id : string := "User ID should be a number".
Definition msg_user_email : string := "User email should be a string".
Definition msg_is_active : string := "User is_active should be 0, 1, true, or false".
Definition msg_token : string := "Access token should be a string".
Definition msg_date : string := "Invalid access_token_expire_at date format".
Definition msg_expired : string := "Access token appears to be expired".

Section Validator.
(** The runtime's date parser and the instant [new Date()] reads. *)
Variable Date_parse : string -> option Z.
Variable now : Z.

(** Check response status (lines 393-396). *)
Definition check_status (response : Response) (validation : Validation) : Validation :=
  if negb (strict_eq (status response) (VNum 200))
  then push_error ("Expected status 200, got " ++ js_toString (status response))
         (set_invalid validation)
  else validation.

(** Validate success field (lines 411-414). *)
Definition check_success (body : value) (validation : Validation)
    : completion Validation :=
  success <- js_get body "success" ;;
  Returns (if negb (strict_eq success (VBool true))
           then push_error ("Expected success to be true, got " ++ js_toString success)
                  (set_invalid validation)
           else validation).

(** Validate message field (lines 417-420): [trim] is only reached on a
    string. *)
Definition check_message (body : value) (validation : Validation)
    : completion Validation :=
  message <- js_get body "message" ;;
  Returns (if match message with
              | VStr s => (trim s =? "")%string
              | _ => true
              end
           then push_error msg_message (set_invalid validation)
           else validation).

(** Validate expected user data if provided (lines 456-464). *)
Definition check_expected (user expectedUser : value) (validation : Validation)
    : completion Validation :=
  if truthy expectedUser then
    expected_email <- js_get expectedUser "email" ;;
    user_email <- js_get user "email" ;;
    let validation :=
      if truthy expected_email && negb (strict_eq user_email expected_email)
      then push_error ("Expected email " ++ js_toString expected_email
                       ++ ", got " ++ js_toString user_email) validation
      else validation in
    expected_name <- js_get expectedUser "name" ;;
    user_name <- js_get user "name" ;;
    Returns (if truthy expected_name && negb (strict_eq user_name expected_name)
             then push_warning ("Expected name " ++ js_toString expected_name
                                ++ ", got " ++ js_toString user_name) validation
             else validation)
  else Returns validation.

(** Validate user object (lines 433-465). *)
Definition check_user (data expectedUser : value) (validation : Validation)
    : completion Validation :=
  user <- js_get data "user" ;;
  if truthy user then
    validation <- require_fields "Missing required user field: "
                    userRequiredFields user validation ;;
    id <- js_get user "id" ;;
    let validation :=
      if truthy id && negb (js_typeof id =? "number")%string
      then push_error msg_user_id validation else validation in
    email <- js_get user "email" ;;
    let validation :=
      if truthy email && negb (js_typeof email =? "string")%string
      then push_error msg_user_email validation else validation in
    is_active <- js_get user "is_active" ;;
    let validation :=
      if truthy is_active
         && negb (includes [VNum 0; VNum 1; VBool true; VBool false] is_active)
      then push_warning msg_is_active validation else validation in
    check_expected user expectedUser validation
  else Returns validation.

(** Validate access token (lines 468-470). *)
Definition check_token (data : value) (validation : Validation)
    : completion Validation :=
  access_token <- js_get data "access_token" ;;
  Returns (if negb (strict_eq access_token VUndefined)
              && negb (js_typeof access_token =? "string")%string
           then push_warning msg_token validation
           else validation).

(** Validate token expiration (lines 473-480). *)
Definition check_expiry (data : value) (validation : Validation)
    : completion Validation :=
  expire_at <- js_get data "access_token_expire_at" ;;
  Returns (if truthy expire_at then
             match Date_getTime Date_parse expire_at with
             | None => push_error msg_date validation
             | Some expireDate =>
                 if expireDate <=? now
                 then push_warning msg_expired validation
                 else validation
             end
           else validation).

(** Validate data structure (lines 423-481). *)
Definition check_data (body expectedUser : value) (validation : Validation)
    : completion Validation :=
  data <- js_get body "data" ;;
  if truthy data then
    validation <- require_fields "Missing required data field: "
                    dataRequiredFields data validation ;;
    validation <- check_user data expectedUser validation ;;
    validation <- check_token data validation ;;
    check_expiry data validation
  else Returns validation.

(** [validateLoginResponse(response, expectedUser = null)]: every check
    runs, in source order, on the one [validation] object. *)
Definition validateLoginResponse (response : Response) (expectedUser : value)
    : completion Validation :=
  let expectedUser := default_param expectedUser VNull in
  let validation := check_status response fresh in
  let body := body response in
  validation <- require_fields "Missing required field: "
                  requiredFields body validation ;;
  validation <- check_success body validation ;;
  validation <- check_message body validation ;;
  check_data body expectedUser validation.

End Validator.

End ApiHelpers.

(* ===================================================================== *)
(** ** A date parser to run the validator with *)
(* ===================================================================== *)

(** The validator is stated over any [Date.parse].  To evaluate it on the
    time stamps of the login API ([2024-01-01T00:00:00.000000Z]) this is
    the parser of that format: an ISO date and time in UTC with an
    optional fraction, of which the milliseconds are kept. *)
Module IsoDate.

Definition digit (c : ascii) : option Z :=
  let n := nat_of_ascii c in
  if ((48 <=? n) && (n <=? 57))%nat then Some (Z.of_nat n - 48) else None.

Fixpoint digits (acc : Z) (l : list ascii) : option Z :=
  match l with
  | [] => Some acc
  | c :: rest =>
      match digit c with
      | Some d => digits (acc * 10 + d) rest
      | None => None
      end
  end.

Definition number (l : list ascii) : option Z :=
  match l with [] => None | _ => digits 0 l end.

Definition is_leap (y : Z) : bool :=
  ((y mod 4 =? 0) && negb (y mod 100 =? 0)) || (y mod 400 =? 0).

Definition days_in_month (y m : Z) : Z :=
  if m =? 2 then (if is_leap y then 29 else 28)
  else if (m =? 4) || (m =? 6) || (m =? 9) || (m =? 11) then 30
  else 31.

(** Days from 1970-01-01 to the given day of the Gregorian calendar. *)
Definition days_from_civil (y m d : Z) : Z :=
  let y := if m <=? 2 then y - 1 else y in
  let era := y / 400 in
  let yoe := y - era * 400 in
  let doy := (153 * (if 2 <? m then m - 3 else m + 9) + 2) / 5 + d - 1 in
  let doe := yoe * 365 + yoe / 4 - yoe / 100 + doy in
  era * 146097 + doe - 719468.

(** The fraction after the seconds, cut to milliseconds, and the final
    [Z]. *)
Definition millis (l : list ascii) : option Z :=
  match l with
  | ["Z"%char] => Some 0
  | "."%char :: frac =>
      match rev frac with
      | "Z"%char :: rev_digits =>
          let ds := rev rev_digits in
          match number ds with
          | Some _ => number (firstn 3 (ds ++ ["0"; "0"]%char))
          | None => None
          end
      | _ => None
      end
  | _ => None
  end.

Definition parse (s : string) : option Z :=
  match list_ascii_of_string s with
  | y1 :: y2 :: y3 :: y4 :: "-"%char :: m1 :: m2 :: "-"%char :: d1 :: d2 ::
    "T"%char :: h1 :: h2 :: ":"%char :: n1 :: n2 :: ":"%char :: s1 :: s2 :: rest =>
      match number [y1; y2; y3; y4], number [m1; m2], number [d1; d2],
            number [h1; h2], number [n1; n2], number [s1; s2], millis rest with
      | Some y, Some m, Some d, Some h, Some n, Some sec, Some ms =>
          if (1 <=? m) && (m <=? 12) && (1 <=? d) && (d <=? days_in_month y m)
             && (h <=? 23) && (n <=? 59) && (sec <=? 59)
          then Some ((((days_from_civil y m d * 24 + h) * 60 + n) * 60 + sec) * 1000 + ms)
          else None
      | _, _, _, _, _, _, _ => None
      end
  | _ => None
  end.

End IsoDate.

(* ===================================================================== *)
(** ** Well-formed login responses *)
(* ===================================================================== *)

(** What the specification calls a fully well-formed response: status 200,
    [success] true, a non-blank [message], a [data] object with its three
    fields, a user with its six fields, a numeric id, a string email, an
    [is_active] among 0, 1, true and false, and the expected user's email
    and name when one is given.  Each part is a boolean over the same
    property reads as the validator's, so that it can be evaluated. *)
Module WellFormed.

Import ApiHelpers.

(** A property read where throwing is impossible or irrelevant. *)
Definition field (o : value) (k : string) : value :=
  match js_get o k with Returns v => v | Throws _ => VUndefined end.

Definition has_field (o : value) (k : string) : bool :=
  match js_in k o with Returns b => b | Throws _ => false end.

Definition status_ok (response : Response) : bool :=
  strict_eq (status response) (VNum 200).

Definition success_ok (body : value) : bool :=
  strict_eq (field body "success") (VBool true).

Definition message_ok (body : value) : bool :=
  match field body "message" with
  | VStr s => negb (trim s =? "")%string
  | _ => false
  end.

Definition matches (user expectedUser : value) (k : string) : bool :=
  negb (truthy (field expectedUser k))
  || strict_eq (field user k) (field expectedUser k).

Definition expected_ok (user expectedUser : value) : bool :=
  negb (truthy expectedUser)
  || (matches user expectedUser "email" && matches user expectedUser "name").

Definition user_ok (user expectedUser : value) : bool :=
  forallb (has_field user) userRequiredFields
  && (js_typeof (field user "id") =? "number")%string
  && (js_typeof (field user "email") =? "string")%string
  && includes [VNum 0; VNum 1; VBool true; VBool false] (field user "is_active")
  && expected_ok user expectedUser.

Definition token_ok (data : value) : bool :=
  (js_typeof (field data "access_token") =? "string")%string.

(** The [data] object, all but the date of its expiry. *)
Definition data_ok (data expectedUser : value) : bool :=
  forallb (has_field data) dataRequiredFields
  && user_ok (field data "user") expectedUser
  && token_ok data.

(** Status, required fields and [success]: the checks around [message]. *)
Definition envelope_ok (response : Response) : bool :=
  status_ok response && success_ok (body response).

(** Well-formed, the token expiry left open. *)
Definition well_formed (response : Response) (expectedUser : value) : bool :=
  envelope_ok response
  && message_ok (body response)
  && data_ok (field (body response) "data") expectedUser.

(** Well-formed but for a [message] that is not there at all. *)
Definition well_formed_but_message (response : Response) (expectedUser : value) : bool :=
  envelope_ok response
  && negb (has_field (body response) "message")
  && data_ok (field (body response) "data") expectedUser.

(** Values that a property read cannot have made up: neither [undefined]
    nor a built-in. *)
Definition is_data (v : value) : bool :=
  match v with
  | VUndefined | VNative _ => false
  | _ => true
  end.

(** [o] with property [k] set to [v]: [{...o, [k]: v}] keeping the place
    of [k]. *)
Fixpoint set_property (k : string) (v : value) (props : list (string * value))
    : list (string * value) :=
  match props with
  | [] => [(k, v)]
  | (k', v') :: rest =>
      if (k' =? k)%string then (k', v) :: rest
      else (k', v') :: set_property k v rest
  end.

Definition with_field (o : value) (k : string) (v : value) : value :=
  match o with
  | VObj props => VObj (set_property k v props)
  | _ => o
  end.

(** The response with [body.data.user.is_active] replaced. *)
Definition with_is_active (response : Response) (v : value) : Response :=
  let body := body response in
  let data := field body "data" in
  let user := field data "user" in
  {| status := status response;
     body := with_field body "data"
               (with_field data "user" (with_field user "is_active" v)) |}.

(** Two validation states that differ by one warning, first in the list
    of the left one. *)
Definition ahead (msg : string) (v v' : Validation) : Prop :=
  isValid v = isValid v' /\ errors v = errors v'
  /\ warnings v = msg :: warnings v'.

(** The half of the [isValid] invariant that every check keeps: a state
    marked invalid has an error. *)
Definition invalid_has_error (v : Validation) : Prop :=
  isValid v = false -> errors v <> [].

End WellFormed.

(* ===================================================================== *)
(** ** The browser engine and asynchronous methods *)
(* ===================================================================== *)

(** The page objects do nothing by themselves: each method is a sequence
    of calls to the automation engine, whose answers decide how it goes
    on.  An [async] method is therefore a tree: a leaf returns or throws,
    a node awaits one engine call (or a race of waits) and continues with
    the way the promise settled. *)
Module Engine.

(** A selector argument.  [this.selectors.k] for a key the table does not
    have is [undefined], which the engine is then handed as it is. *)
Inductive selector : Type :=
| Sel (s : string)
| NoSelector.

Coercion Sel : string >-> selector.

Definition selector_eqb (a b : selector) : bool :=
  match a, b with
  | Sel x, Sel y => (x =? y)%string
  | NoSelector, NoSelector => true
  | _, _ => false
  end.

(** [page.locator(a).locator(b)] is the chain [[a; b]]; the page itself
    is the empty chain. *)
Definition locator : Type := list selector.

Inductive wait_state : Type := visible.

(** The calls that return a promise of an outcome on the page. *)
Inductive wait : Type :=
| waitForSelector (sel : selector) (state : option wait_state) (timeout : Z)
| waitForURL (url : string) (timeout : Z)
| waitFor (loc : locator) (state : option wait_state) (timeout : Z).

Inductive call : Type :=
| Wait (w : wait)
| clear (loc : locator)
| fill (loc : locator) (text : value)
| click (loc : locator)
| isChecked (loc : locator)
| check (loc : locator)
| uncheck (loc : locator)
| selectOption (loc : locator) (option : value)
| setInputFiles (loc : locator) (files : value).

(** What the promise of a call is fulfilled with. *)
Definition reply (c : call) : Type :=
  match c with
  | isChecked _ => bool
  | _ => unit
  end.

(** The selectors a call names. *)
Definition targets (c : call) : list selector :=
  match c with
  | Wait (waitForSelector sel _ _) => [sel]
  | Wait (waitForURL _ _) => []
  | Wait (waitFor loc _ _) => loc
  | clear loc | fill loc _ | click loc | isChecked loc | check loc
  | uncheck loc | selectOption loc _ | setInputFiles loc _ => loc
  end.

Definition touches (sel : selector) (c : call) : bool :=
  existsb (selector_eqb sel) (targets c).

(** An asynchronous method.  [AwaitRace first others] is
    [await Promise.race([first, ...others])]: the raced waits are all
    started, and the race settles as the first of them that settles. *)
Inductive prog (A : Type) : Type :=
| Ret (a : A)
| Throw (e : exn)
| Await (c : call) (k : completion (reply c) -> prog A)
| AwaitRace (first : wait) (others : list wait) (k : completion unit -> prog A).

Arguments Ret {A} a.
Arguments Throw {A} e.
Arguments Await {A} c k.
Arguments AwaitRace {A} first others k.

(** A synchronous evaluation inside an [async] method. *)
Definition eval {A} (c : completion A) : prog A :=
  match c with
  | Returns a => Ret a
  | Throws e => Throw e
  end.

(** [await engine.c(...)]: a rejection is thrown at the [await]. *)
Definition await (c : call) : prog (reply c) :=
  Await c eval.

(** [await Promise.race([...])] *)
Definition Promise_race (first : wait) (others : list wait) : prog unit :=
  AwaitRace first others eval.

Fixpoint pbind {A B} (p : prog A) (f : A -> prog B) : prog B :=
  match p with
  | Ret a => f a
  | Throw e => Throw e
  | Await c k => Await c (fun r => pbind (k r) f)
  | AwaitRace w ws k => AwaitRace w ws (fun r => pbind (k r) f)
  end.

(** [try { p } catch (e) { handler(e) }] *)
Fixpoint try_catch {A} (p : prog A) (handler : exn -> prog A) : prog A :=
  match p with
  | Ret a => Ret a
  | Throw e => handler e
  | Await c k => Await c (fun r => try_catch (k r) handler)
  | AwaitRace w ws k => AwaitRace w ws (fun r => try_catch (k r) handler)
  end.

(** An engine: the page it drives is a [World]; [perform] settles a call
    started in a world and gives the world in which it has settled;
    [settles_after] is the time a wait started now takes to settle. *)
Record engine : Type :=
  { World : Type;
    perform : forall c : call, World -> completion (reply c) * World;
    settles_after : wait -> World -> Z }.

(** The first of the raced waits to settle, the earlier in the array when
    two settle together. *)
Definition winner (E : engine) (w : World E) (first : wait) (others : list wait) : wait :=
  fold_left
    (fun best candidate =>
       if settles_after E candidate w <? settles_after E best w
       then candidate else best)
    others first.

(** Running a method against an engine from a world. *)
Fixpoint run (E : engine) {A} (p : prog A) (w : World E) : completion A * World E :=
  match p with
  | Ret a => (Returns a, w)
  | Throw e => (Throws e, w)
  | Await c k =>
      let (r, w') := perform E c w in
      run E (k r) w'
  | AwaitRace first others k =>
      let (r, w') := perform E (Wait (winner E w first others)) w in
      run E (k r) w'
  end.

(** The engine calls a run makes, in order. *)
Fixpoint calls (E : engine) {A} (p : prog A) (w : World E) : list call :=
  match p with
  | Ret _ | Throw _ => []
  | Await c k =>
      let (r, w') := perform E c w in
      c :: calls E (k r) w'
  | AwaitRace first others k =>
      let (r, w') := perform E (Wait (winner E w first others)) w in
      map Wait (first :: others) ++ calls E (k r) w'
  end.

(** How a wait started in world [w] settles. *)
Definition rejected (E : engine) (w : World E) (x : wait) : Prop :=
  exists e w', perform E (Wait x) w = (Throws e, w').

Definition fulfilled (E : engine) (w : World E) (x : wait) : Prop :=
  exists w', perform E (Wait x) w = (Returns tt, w').

(** No run of [p] makes a call that names [sel]. *)
Definition avoids {A} (sel : selector) (p : prog A) : Prop :=
  forall (E : engine) (w : World E) (c : call),
    In c (calls E p w) -> touches sel c = false.

(** The run of [p] from [w] makes a call that names [sel]. *)
Definition reaches (E : engine) {A} (sel : selector) (p : prog A) (w : World E) : Prop :=
  exists c, In c (calls E p w) /\ touches sel c = true.

End Engine.

Import Engine.

Declare Scope prog_scope.
Delimit Scope prog_scope with prog.
Notation "x <- p ;; k" := (Engine.pbind p (fun x => k))
  (at level 61, p at next level, right associativity) : prog_scope.
Notation "p ;; k" := (Engine.pbind p (fun _ => k))
  (at level 61, right associativity) : prog_scope.

(* ===================================================================== *)
(** ** pages/base.page.js and pages/components/base.component.js *)
(* ===================================================================== *)

(** The double quote of attribute selectors such as
    [[data-testid=...]]. *)
Definition quoted (s : string) : string :=
  String (ascii_of_nat 34) s ++ String (ascii_of_nat 34) EmptyString.

Definition testid (name : string) : string :=
  "[data-testid=" ++ quoted name ++ "]".

Module BasePage.

Local Open Scope prog_scope.

(** [waitForElement(selector, timeout = 10000)] *)
Definition waitForElement (selector : selector) (timeout : Z) : prog unit :=
  await (Wait (waitForSelector selector (Some visible) timeout)).

Definition default_timeout : Z := 10000.

(** [isElementVisible(selector)]: the wait in a [try], [false] from the
    [catch]. *)
Definition isElementVisible (selector : selector) : prog bool :=
  try_catch
    (await (Wait (waitForSelector selector (Some visible) 5000)) ;;
     Ret true)
    (fun _ => Ret false).

End BasePage.

Module BaseComponent.

Local Open Scope prog_scope.

(** [constructor(page, rootSelector = null)] *)
Record component : Type := { rootSelector : option string }.

(** [this.rootSelector ? ... : ...]: [null] and the empty string are
    false. *)
Definition has_root (c : component) : bool :=
  match rootSelector c with
  | Some s => negb (s =? "")%string
  | None => false
  end.

(** [get root()]: the root's locator, or the page. *)
Definition root (c : component) : locator :=
  match rootSelector c with
  | Some s => if negb (s =? "")%string then [Sel s] else []
  | None => []
  end.

(** [locator(selector)] *)
Definition locate (c : component) (selector : selector) : locator :=
  (root c ++ [selector])%list.

(** [isVisible()] *)
Definition isVisible (c : component) : prog bool :=
  if negb (has_root c) then Ret true
  else
    try_catch
      (await (Wait (waitFor (root c) (Some visible) 5000)) ;;
       Ret true)
      (fun _ => Ret false).

(** [isElementVisible(selector)] *)
Definition isElementVisible (c : component) (selector : selector) : prog bool :=
  try_catch
    (await (Wait (waitFor (locate c selector) (Some visible) 5000)) ;;
     Ret true)
    (fun _ => Ret false).

End BaseComponent.

(* ===================================================================== *)
(** ** pages/login.page.js *)
(* ===================================================================== *)

Module LoginPage.

Local Open Scope prog_scope.

(** The entries of [this.selectors] that [login] reads. *)
Definition emailInput : selector :=
  Sel ("input[type=" ++ quoted "email" ++ "], input[name=" ++ quoted "email"
       ++ "], input[placeholder*=" ++ quoted "Email"
       ++ "], #email, input:first-of-type").
Definition passwordInput : selector :=
  Sel ("input[type=" ++ quoted "password" ++ "], input[name=" ++ quoted "password"
       ++ "], input[placeholder*=" ++ quoted "Password" ++ "], #password").
Definition loginButton : selector :=
  Sel ("button[type=" ++ quoted "submit" ++ "], .login-button, button:has-text("
       ++ quoted "Sign In" ++ "), .btn-primary").
Definition errorMessage : selector :=
  Sel (".error-message, .alert-danger, .text-danger, [role=" ++ quoted "alert" ++ "]").
Definition successMessage : selector :=
  Sel ".success-message, .alert-success, .text-success".
(** The table has no [rememberMeCheckbox]. *)
Definition rememberMeCheckbox : selector := NoSelector.

Definition fillEmail (email : value) : prog unit :=
  BasePage.waitForElement emailInput BasePage.default_timeout ;;
  await (clear [emailInput]) ;;
  await (fill [emailInput] email).

Definition fillUsername (username : value) : prog unit :=
  fillEmail username.

Definition fillPassword (password : value) : prog unit :=
  BasePage.waitForElement passwordInput BasePage.default_timeout ;;
  await (clear [passwordInput]) ;;
  await (fill [passwordInput] password).

Definition clickLoginButton : prog unit :=
  BasePage.waitForElement loginButton BasePage.default_timeout ;;
  await (click [loginButton]).

(** [checkRememberMe(check = true)] *)
Definition checkRememberMe (check_arg : value) : prog unit :=
  let want := truthy (default_param check_arg (VBool true)) in
  shown <- BasePage.isElementVisible rememberMeCheckbox ;;
  if shown then
    checked <- await (isChecked [rememberMeCheckbox]) ;;
    if want && negb checked then await (check [rememberMeCheckbox])
    else if negb want && checked then await (uncheck [rememberMeCheckbox])
    else Ret tt
  else Ret tt.

(** The actions of [login] before it waits (lines 120-127). *)
Definition login_actions (username password rememberMe : value) : prog unit :=
  fillUsername username ;;
  fillPassword password ;;
  (if truthy (default_param rememberMe (VBool false))
   then checkRememberMe VUndefined else Ret tt) ;;
  clickLoginButton.

(** The promises its race starts (lines 131-136). *)
Definition login_outcomes : wait * list wait :=
  (waitForSelector successMessage None 5000,
   [ waitForSelector errorMessage None 5000;
     waitForURL "**/dashboard" 5000;
     waitForURL "**/home" 5000 ]).

(** [login(username, password, rememberMe = false)] *)
Definition login (username password rememberMe : value) : prog unit :=
  login_actions username password rememberMe ;;
  try_catch
    (Promise_race (fst login_outcomes) (snd login_outcomes))
    (fun _ => Ret tt).

End LoginPage.

(* ===================================================================== *)
(** ** pages/contact.page.js *)
(* ===================================================================== *)

Module ContactPage.

Local Open Scope prog_scope.

Definition firstNameInput : selector := Sel (testid "first-name-input").
Definition lastNameInput : selector := Sel (testid "last-name-input").
Definition emailInput : selector := Sel (testid "email-input").
Definition phoneInput : selector := Sel (testid "phone-input").
Definition subjectInput : selector := Sel (testid "subject-input").
Definition messageTextarea : selector := Sel (testid "message-textarea").
Definition submitButton : selector := Sel (testid "submit-button").
Definition errorMessage : selector := Sel (testid "error-message").
Definition successMessage : selector := Sel (testid "success-message").
Definition inquiryTypeSelect : selector := Sel (testid "inquiry-type-select").
Definition attachmentInput : selector := Sel (testid "attachment-input").
Definition privacyCheckbox : selector := Sel (testid "privacy-checkbox").
Definition newsletterCheckbox : selector := Sel (testid "newsletter-checkbox").

(** The body shared by [fillFirstName], [fillLastName], [fillEmail],
    [fillSubject] and [fillMessage]: wait for the input, clear it, fill
    it. *)
Definition fill_input (input : selector) (text : value) : prog unit :=
  BasePage.waitForElement input BasePage.default_timeout ;;
  await (clear [input]) ;;
  await (fill [input] text).

Definition fillFirstName (firstName : value) : prog unit := fill_input firstNameInput firstName.
Definition fillLastName (lastName : value) : prog unit := fill_input lastNameInput lastName.
Definition fillEmail (email : value) : prog unit := fill_input emailInput email.
Definition fillSubject (subject : value) : prog unit := fill_input subjectInput subject.
Definition fillMessage (message : value) : prog unit := fill_input messageTextarea message.

(** [fillPhone] fills only a phone input that shows. *)
Definition fillPhone (phone : value) : prog unit :=
  shown <- BasePage.isElementVisible phoneInput ;;
  if shown then
    await (clear [phoneInput]) ;;
    await (fill [phoneInput] phone)
  else Ret tt.

Definition selectInquiryType (inquiryType : value) : prog unit :=
  shown <- BasePage.isElementVisible inquiryTypeSelect ;;
  if shown then await (selectOption [inquiryTypeSelect] inquiryType) else Ret tt.

Definition uploadAttachment (filePath : value) : prog unit :=
  shown <- BasePage.isElementVisible attachmentInput ;;
  if shown then await (setInputFiles [attachmentInput] filePath) else Ret tt.

(** The body shared by [checkPrivacyPolicy(check = true)] and
    [checkNewsletter(check = true)]. *)
Definition set_checkbox (box : selector) (check_arg : value) : prog unit :=
  let want := truthy (default_param check_arg (VBool true)) in
  shown <- BasePage.isElementVisible box ;;
  if shown then
    checked <- await (isChecked [box]) ;;
    if want && negb checked then await (check [box])
    else if negb want && checked then await (uncheck [box])
    else Ret tt
  else Ret tt.

Definition checkPrivacyPolicy (check_arg : value) : prog unit :=
  set_checkbox privacyCheckbox check_arg.
Definition checkNewsletter (check_arg : value) : prog unit :=
  set_checkbox newsletterCheckbox check_arg.

Definition clickSubmit : prog unit :=
  BasePage.waitForElement submitButton BasePage.default_timeout ;;
  await (click [submitButton]).

(** [if (contactData.k) await this.helper(contactData.k);] *)
Definition when_truthy (contactData : value) (k : string)
    (helper : value -> prog unit) : prog unit :=
  v <- eval (js_get contactData k) ;;
  if truthy v then helper v else Ret tt.

(** [if (contactData.k !== undefined) { await this.helper(contactData.k); }] *)
Definition when_defined (contactData : value) (k : string)
    (helper : value -> prog unit) : prog unit :=
  v <- eval (js_get contactData k) ;;
  if negb (strict_eq v VUndefined) then helper v else Ret tt.

(** [fillContactForm(contactData)] *)
Definition fillContactForm (contactData : value) : prog unit :=
  when_truthy contactData "firstName" fillFirstName ;;
  when_truthy contactData "lastName" fillLastName ;;
  when_truthy contactData "email" fillEmail ;;
  when_truthy contactData "phone" fillPhone ;;
  when_truthy contactData "subject" fillSubject ;;
  when_truthy contactData "message" fillMessage ;;
  when_truthy contactData "inquiryType" selectInquiryType ;;
  when_truthy contactData "attachment" uploadAttachment ;;
  when_defined contactData "acceptPrivacy" checkPrivacyPolicy ;;
  when_defined contactData "subscribeNewsletter" checkNewsletter.

(** The actions of [submitContactForm] before it waits (lines 241-242). *)
Definition submit_actions (contactData : value) : prog unit :=
  fillContactForm contactData ;;
  clickSubmit.

(** The promises the race of [submitContactForm] starts. *)
Definition submit_outcomes : wait * list wait :=
  (waitForSelector successMessage None 10000,
   [ waitForSelector errorMessage None 10000 ]).

(** [submitContactForm(contactData)] *)
Definition submitContactForm (contactData : value) : prog unit :=
  submit_actions contactData ;;
  try_catch
    (Promise_race (fst submit_outcomes) (snd submit_outcomes))
    (fun _ => Ret tt).

(** Which input each key of the record drives, as the helpers above have
    it: the eight keys filled when truthy, the two checkboxes. *)
Definition filled_fields : list (string * selector) :=
  [ ("firstName", firstNameInput); ("lastName", lastNameInput);
    ("email", emailInput); ("phone", phoneInput);
    ("subject", subjectInput); ("message", messageTextarea);
    ("inquiryType", inquiryTypeSelect); ("attachment", attachmentInput) ].

Definition checkbox_fields : list (string * selector) :=
  [ ("acceptPrivacy", privacyCheckbox);
    ("subscribeNewsletter", newsletterCheckbox) ].

End ContactPage.

(* ===================================================================== *)
(** ** utils/userCredentials.js *)
(* ===================================================================== *)

Module UserCredentials.

Definition validUser : value :=
  VObj [ ("username", VStr "testuser@example.com");
         ("password", VStr "TestPass123!");
         ("firstName", VStr "Test");
         ("lastName", VStr "User");
         ("fullName", VStr "Test User") ].

Definition invalidUser : value :=
  VObj [ ("username", VStr "invalid@example.com");
         ("password", VStr "wrongpassword");
         ("firstName", VStr "Invalid");
         ("lastName", VStr "User") ].

Definition adminUser : value :=
  VObj [ ("username", VStr "admin@example.com");
         ("password", VStr "AdminPass123!");
         ("firstName", VStr "Admin");
         ("lastName", VStr "User");
         ("role", VStr "administrator") ].

Definition emptyCredentials : value :=
  VObj [ ("username", VStr ""); ("password", VStr "") ].

Definition testUsers : value :=
  VObj [ ("validUser", validUser); ("invalidUser", invalidUser);
         ("adminUser", adminUser); ("emptyCredentials", emptyCredentials) ].

Definition dev : value :=
  VObj [ ("baseUrl", VStr "http://localhost:3000");
         ("apiUrl", VStr "http://localhost:3001/api") ].

Definition staging : value :=
  VObj [ ("baseUrl", VStr "https://staging.example.com");
         ("apiUrl", VStr "https://staging-api.example.com") ].

Definition production : value :=
  VObj [ ("baseUrl", VStr "https://example.com");
         ("apiUrl", VStr "https://api.example.com") ].

Definition environments : value :=
  VObj [ ("dev", dev); ("staging", staging); ("production", production) ].

(** [a || b] on two property reads. *)
Definition or_else (a b : completion value) : completion value :=
  JS.bind a (fun v => if truthy v then Returns v else b).

(** [getUserCredentials(userType = 'validUser')]:
    [testUsers[userType] || testUsers.validUser], the key being the
    argument as a string. *)
Definition getUserCredentials (userType : value) : completion value :=
  let userType := default_param userType (VStr "validUser") in
  or_else (js_get testUsers (js_toString userType)) (js_get testUsers "validUser").

(** [getEnvironmentConfig(env = 'dev')] *)
Definition getEnvironmentConfig (env : value) : completion value :=
  let env := default_param env (VStr "dev") in
  or_else (js_get environments (js_toString env)) (js_get environments "dev").

(** The own keys of a record. *)
Definition keys (o : value) : list string :=
  match o with
  | VObj props => map fst props
  | _ => []
  end.

End UserCredentials.

(* ===================================================================== *)
(** ** A scripted engine *)
(* ===================================================================== *)

(** An engine to run the page objects on: the world is the clock in
    milliseconds, and a script says when each selector starts to show.  A
    wait is fulfilled when its selector shows before the timeout and
    rejected with a [TimeoutError] at the timeout otherwise; an action
    waits for its target in the same way, for the engine's 30 seconds; the
    page never changes its URL and no box is checked. *)
Module Scripted.

Section Script.
Variable shows_at : selector -> option Z.

Definition settle (sel : selector) (timeout now : Z) : completion unit * Z :=
  match shows_at sel with
  | Some t =>
      if t <=? now + timeout then (Returns tt, Z.max now t)
      else (Throws TimeoutError, now + timeout)
  | None => (Throws TimeoutError, now + timeout)
  end.

Definition settle_wait (w : wait) (now : Z) : completion unit * Z :=
  match w with
  | waitForSelector sel _ timeout => settle sel timeout now
  | waitForURL _ timeout => (Throws TimeoutError, now + timeout)
  | waitFor loc _ timeout => settle (last loc NoSelector) timeout now
  end.

Definition act (loc : locator) (now : Z) : completion unit * Z :=
  settle (last loc NoSelector) 30000 now.

Definition answer (c : call) (now : Z) : completion (reply c) * Z :=
  match c return completion (reply c) * Z with
  | Wait w => settle_wait w now
  | isChecked loc =>
      match act loc now with
      | (Returns _, t) => (Returns false, t)
      | (Throws e, t) => (Throws e, t)
      end
  | clear loc | fill loc _ | click loc | check loc | uncheck loc
  | selectOption loc _ | setInputFiles loc _ => act loc now
  end.

Definition scripted : engine :=
  {| World := Z;
     perform := answer;
     settles_after := fun w now => snd (settle_wait w now) - now |}.

End Script.

(** A login page whose form shows at once and that never answers. *)
Definition silent_login (sel : selector) : option Z :=
  if selector_eqb sel LoginPage.emailInput
     || selector_eqb sel LoginPage.passwordInput
     || selector_eqb sel LoginPage.loginButton
  then Some 0 else None.

(** A contact page whose inputs show at once, without phone input, and
    that never answers. *)
Definition silent_contact (sel : selector) : option Z :=
  if selector_eqb sel ContactPage.successMessage
     || selector_eqb sel ContactPage.errorMessage
     || selector_eqb sel ContactPage.phoneInput
  then None else Some 0.

(** A page on which [#banner] shows after two seconds and nothing else
    ever does. *)
Definition late_banner (sel : selector) : option Z :=
  if selector_eqb sel (Sel "#banner") then Some 2000 else None.

End Scripted.

(* ===================================================================== *)
(** ** Sample responses *)
(* ===================================================================== *)

(** The login response of the specification's scenarios and variations of
    it, with a clock to validate them at. *)
Module Samples.

Import ApiHelpers WellFormed.

Definition admin : value :=
  VObj [ ("id", VNum 1); ("name", VStr "Admin"); ("email", VStr "admin@admin.com");
         ("is_active", VNum 1);
         ("created_at", VStr "2024-01-01T00:00:00.000000Z");
         ("updated_at", VStr "2024-01-01T00:00:00.000000Z") ].

Definition login_data (user expire_at : value) : value :=
  VObj [ ("user", user); ("access_token", VStr "abc");
         ("access_token_expire_at", expire_at) ].

Definition login_response (user expire_at : value) : Response :=
  {| status := VNum 200;
     body := VObj [ ("success", VBool true);
                    ("message", VStr "Successfully logged in.");
                    ("data", login_data user expire_at) ] |}.

Definition year_2999 : value := VStr "2999-01-01T00:00:00.000000Z".
Definition year_2024 : value := VStr "2024-01-01T00:00:00.000000Z".

(** [{email: 'admin@admin.com'}] *)
Definition expected_admin : value := VObj [ ("email", VStr "admin@admin.com") ].

(** 2026-01-01T00:00:00Z in milliseconds. *)
Definition clock : Z := 1767225600000.

(** The same response without the [message] key. *)
Definition response_without_message : Response :=
  {| status := VNum 200;
     body := VObj [ ("success", VBool true);
                    ("data", login_data admin year_2999) ] |}.

(** The user with the id sent as a string. *)
Definition admin_string_id : value := with_field admin "id" (VStr "1").

(** The user with a number for email. *)
Definition admin_numeric_email : value := with_field admin "email" (VNum 5).

(** [{email: 'other@admin.com'}] *)
Definition expected_other : value := VObj [ ("email", VStr "other@admin.com") ].

(** An expiry that is no date. *)
Definition no_date : value := VStr "soon".

(** [data: null] *)
Definition response_null_data : Response :=
  {| status := VNum 200;
     body := VObj [ ("success", VBool true);
                    ("message", VStr "Successfully logged in.");
                    ("data", VNull) ] |}.

End Samples.

(* ===================================================================== *)
(** ** utils/apiHelpers.js: reading a login response *)
(* ===================================================================== *)

Module TokenHelpers.

Import ApiHelpers.

Local Open Scope completion_scope.



Section Clock.
Variable Date_parse : string -> option Z.
Variable now : Z.

(** [isTokenValid(response)]: [expireDate > new Date()], which is false
    for a date that does not parse. *)
Definition isTokenValid (response : Response) : completion bool :=
  if truthy (body response) then
    data <- js_get (body response) "data" ;;
    if truthy data then
      expire_at <- js_get data "access_token_expire_at" ;;
      if truthy expire_at then
        Returns match Date_getTime Date_parse expire_at with
                | Some expireDate => now <? expireDate
                | None => false
                end
      else Returns false
    else Returns false
  else Returns false.

End Clock.

End TokenHelpers.

(* ===================================================================== *)
(** ** Shapes and verdicts of a validation *)
(* ===================================================================== *)

Module Verdicts.

Import ApiHelpers WellFormed.

(** The values the [in] operator accepts on its right. *)
Definition searchable (v : value) : bool :=
  match v with
  | VObj _ | VArr _ | VNative _ => true
  | _ => false
  end.

(** The responses on which no required-field loop meets a primitive: the
    body can be searched, and so can a truthy [data] and a truthy
    [data.user]. *)
Definition searchable_response (response : Response) : bool :=
  searchable (body response)
  && (let data := field (body response) "data" in
      negb (truthy data)
      || (searchable data
          && (let user := field data "user" in
              negb (truthy user) || searchable user))).

(** The values that [String(v)] and [new Date(v)] convert without a
    call into the value itself: primitives, functions, the objects that
    have neither a [toString] nor a [valueOf] of their own, and the arrays
    of such values.  On these [js_toString] is the conversion, and it
    cannot throw. *)
Fixpoint printable (v : value) : bool :=
  match v with
  | VArr items => forallb printable items
  | VObj props =>
      match own_property "toString" props, own_property "valueOf" props with
      | None, None => true
      | _, _ => false
      end
  | _ => true
  end.

(** The values the validator may convert to a string or to a date: those
    of the template literals (the status, [success], the two emails, the
    two names) and the expiry given to [new Date]. *)
Definition converted (response : Response) (expectedUser : value) : list value :=
  let data := field (body response) "data" in
  let user := field data "user" in
  let expected := default_param expectedUser VNull in
  [ status response;
    field (body response) "success";
    field expected "email"; field user "email";
    field expected "name"; field user "name";
    field data "access_token_expire_at" ].

(** From [v] to [v']: errors were only added at the end, and a cleared
    [isValid] stayed cleared. *)
Definition grows (v v' : Validation) : Prop :=
  (exists added, errors v' = (errors v ++ added)%list)
  /\ (isValid v = false -> isValid v' = false).

(** The validation reports [msg]: it is among the errors and the state is
    marked invalid. *)
Definition reported (msg : string) (v : Validation) : Prop :=
  In msg (errors v) /\ isValid v = false.

(** The same verdict: the same [isValid] and the same errors. *)
Definition same_verdict (v v' : Validation) : Prop :=
  isValid v = isValid v' /\ errors v = errors v'.

(** No message about the token expiry yet. *)
Definition no_expiry_message (v : Validation) : Prop :=
  ~ In msg_expired (warnings v) /\ ~ In msg_date (errors v).

End Verdicts.

(* ===================================================================== *)
(** ** The other methods of the page objects *)
(* ===================================================================== *)

(** Kinds of engine calls. *)
Module Calls.

Definition is_fill (c : call) : bool :=
  match c with fill _ _ => true | _ => false end.
Definition is_click (c : call) : bool :=
  match c with click _ => true | _ => false end.
Definition is_check (c : call) : bool :=
  match c with check _ => true | _ => false end.
Definition is_uncheck (c : call) : bool :=
  match c with uncheck _ => true | _ => false end.
Definition is_wait (c : call) : bool :=
  match c with Wait _ => true | _ => false end.

(** No run of [p] makes a call of the kind [kind]. *)
Definition never {A} (kind : call -> bool) (p : prog A) : Prop :=
  forall (E : engine) (w : World E) (c : call),
    In c (calls E p w) -> kind c = false.

(** [null] and [undefined], the values without properties. *)
Definition nullish (v : value) : bool :=
  match v with
  | VUndefined | VNull => true
  | _ => false
  end.

(** An engine that rejects every wait for a selector it is not given, as
    an engine that checks its arguments does. *)
Definition rejects_no_selector (E : engine) : Prop :=
  forall (w : World E) state timeout,
    rejected E w (waitForSelector NoSelector state timeout).

End Calls.

Module BaseComponentRest.

Import BaseComponent.

Local Open Scope prog_scope.

(** [waitForVisible(timeout = 10000)] *)
Definition waitForVisible (c : component) (timeout : Z) : prog unit :=
  if has_root c then await (Wait (waitFor (root c) (Some visible) timeout))
  else Ret tt.

(** [click(selector)] *)
Definition click_in (c : component) (selector : selector) : prog unit :=
  await (click (locate c selector)).

End BaseComponentRest.

Module LoginPageRest.

Import LoginPage.

Local Open Scope prog_scope.

Definition loginForm : selector :=
  Sel ("form, .login-form, .auth-form, " ++ testid "login-form").
Definition forgotPasswordLink : selector :=
  Sel ("a:has-text(" ++ quoted "Forgot Password" ++ "), .forgot-password, a[href*="
       ++ quoted "forgot" ++ "]").
Definition signUpLink : selector :=
  Sel ("a:has-text(" ++ quoted "Sign Up" ++ "), .signup-link, a[href*="
       ++ quoted "signup" ++ "], a[href*=" ++ quoted "register" ++ "]").

(** The table has neither [googleLoginButton] nor [facebookLoginButton]. *)
Definition googleLoginButton : selector := NoSelector.
Definition facebookLoginButton : selector := NoSelector.

(** [isLoginPageLoaded()]: both waits in one [try]; the [catch] logs to
    the console, which the page does not see, and returns [false]. *)
Definition isLoginPageLoaded : prog bool :=
  try_catch
    (BasePage.waitForElement loginForm BasePage.default_timeout ;;
     BasePage.isElementVisible loginButton)
    (fun _ => Ret false).

Definition clickForgotPassword : prog unit :=
  BasePage.waitForElement forgotPasswordLink BasePage.default_timeout ;;
  await (click [forgotPasswordLink]).

Definition clickSignUpLink : prog unit :=
  shown <- BasePage.isElementVisible signUpLink ;;
  if shown then await (click [signUpLink]) else Ret tt.

(** [clearForm()] *)
Definition clearForm : prog unit :=
  await (clear [emailInput]) ;;
  await (clear [passwordInput]) ;;
  shown <- BasePage.isElementVisible rememberMeCheckbox ;;
  if shown then
    checked <- await (isChecked [rememberMeCheckbox]) ;;
    if checked then await (uncheck [rememberMeCheckbox]) else Ret tt
  else Ret tt.

(** [loginWithGoogle()] and [loginWithFacebook()] *)
Definition loginWithGoogle : prog unit :=
  shown <- BasePage.isElementVisible googleLoginButton ;;
  if shown then await (click [googleLoginButton])
  else Throw (Error "Google login button not available").

Definition loginWithFacebook : prog unit :=
  shown <- BasePage.isElementVisible facebookLoginButton ;;
  if shown then await (click [facebookLoginButton])
  else Throw (Error "Facebook login button not available").

Section Messages.
(** [error.message] for the errors whose wording is the runtime's. *)
Variable runtime_message : exn -> string.

Definition message (e : exn) : string :=
  match e with
  | Error msg => msg
  | _ => runtime_message e
  end.

(** [waitForLoginResult(timeout = 10000)]: the race of [login], its
    rejection thrown on as a new error. *)
Definition waitForLoginResult (timeout : Z) : prog unit :=
  try_catch
    (Promise_race (waitForSelector successMessage None timeout)
       [ waitForSelector errorMessage None timeout;
         waitForURL "**/dashboard" timeout;
         waitForURL "**/home" timeout ])
    (fun error =>
       Throw (Error ("Login result not received within "
                     ++ JS.Z_to_string timeout ++ "ms: " ++ message error))).

End Messages.

End LoginPageRest.

Module ContactPageRest.

Import ContactPage.

Local Open Scope prog_scope.

Definition contactForm : selector := Sel (testid "contact-form").
Definition resetButton : selector := Sel (testid "reset-button").

(** [isContactPageLoaded()] *)
Definition isContactPageLoaded : prog bool :=
  try_catch
    (BasePage.waitForElement contactForm BasePage.default_timeout ;;
     BasePage.isElementVisible submitButton)
    (fun _ => Ret false).

(** [clearForm()] *)
Definition clearForm : prog unit :=
  await (clear [firstNameInput]) ;;
  await (clear [lastNameInput]) ;;
  await (clear [emailInput]) ;;
  (shown <- BasePage.isElementVisible phoneInput ;;
   if shown then await (clear [phoneInput]) else Ret tt) ;;
  await (clear [subjectInput]) ;;
  await (clear [messageTextarea]) ;;
  checkPrivacyPolicy (VBool false) ;;
  checkNewsletter (VBool false).

Definition clickReset : prog unit :=
  shown <- BasePage.isElementVisible resetButton ;;
  if shown then await (click [resetButton]) else Ret tt.

End ContactPageRest.

(** The header, a component rooted at [[data-testid=header]] (declared in
    the file of the contact page). *)
Module HeaderComponent.

Import BaseComponent BaseComponentRest.

Local Open Scope prog_scope.

Definition header : component := {| rootSelector := Some (testid "header") |}.

Definition logo : selector := Sel (testid "logo").
Definition homeLink : selector := Sel (testid "nav-home").
Definition aboutLink : selector := Sel (testid "nav-about").
Definition loginButton : selector := Sel (testid "login-button").
Definition logoutButton : selector := Sel (testid "logout-button").
Definition userMenu : selector := Sel (testid "user-menu").
Definition userAvatar : selector := Sel (testid "user-avatar").
Definition userName : selector := Sel (testid "user-name").

(** [clickLogo()] and [navigateToHome()]: wait for the header, click. *)
Definition clickLogo : prog unit :=
  waitForVisible header 10000 ;;
  click_in header logo.

Definition navigateToHome : prog unit :=
  waitForVisible header 10000 ;;
  click_in header homeLink.

(** [navigateToAbout()], [clickLogin()], [clickLogout()]: wait for the
    header, click the link if it shows. *)
Definition click_if_shown (link : selector) : prog unit :=
  waitForVisible header 10000 ;;
  shown <- isElementVisible header link ;;
  if shown then click_in header link else Ret tt.

Definition navigateToAbout : prog unit := click_if_shown aboutLink.
Definition clickLogin : prog unit := click_if_shown loginButton.
Definition clickLogout : prog unit := click_if_shown logoutButton.

(** [isUserLoggedIn()]: three probes joined by [||], each awaited only
    when those before it were false. *)
Definition isUserLoggedIn : prog bool :=
  menu <- isElementVisible header userMenu ;;
  if menu then Ret true
  else
    logout <- isElementVisible header logoutButton ;;
    if logout then Ret true
    else isElementVisible header userName.

(** [clickUserMenu()] *)
Definition clickUserMenu : prog unit :=
  waitForVisible header 10000 ;;
  menu <- isElementVisible header userMenu ;;
  if menu then click_in header userMenu
  else
    avatar <- isElementVisible header userAvatar ;;
    if avatar then click_in header userAvatar else Ret tt.

End HeaderComponent.

(* ===================================================================== *)
(** ** utils/userCredentials.js: test data and generated data *)
(* ===================================================================== *)

Module TestData.

Import UserCredentials.

Definition characters : string :=
  "ABCDEFGHIJKLMNOPQRSTUVWXYZabcdefghijklmnopqrstuvwxyz0123456789".

(** [s.charAt(i)]: the empty string outside the string. *)
Definition charAt (s : string) (i : Z) : string :=
  if i <? 0 then ""
  else match String.get (Z.to_nat i) s with
       | Some c => String c ""
       | None => ""
       end.

Section Random.
(** [Math.floor(Math.random() * characters.length)] at each turn of the
    loop, the turns counted from 0. *)
Variable draw : nat -> Z.

(** The loop of [generateRandomString] from turn [i], [turns] turns to
    go. *)
Fixpoint random_loop (turns i : nat) (result : string) : string :=
  match turns with
  | O => result
  | S rest => random_loop rest (S i) (result ++ charAt characters (draw i))
  end.

(** [generateRandomString(length = 10)] *)
Definition generateRandomString (length : Z) : string :=
  random_loop (Z.to_nat length) 0 "".

(** [String.prototype.toLowerCase] on a code unit below 256: the letters
    A to Z and the accented capitals from 192 to 222 (215 is the
    multiplication sign) move up by 32. *)
Definition lower (c : ascii) : ascii :=
  let n := nat_of_ascii c in
  if (((65 <=? n) && (n <=? 90))
      || ((192 <=? n) && (n <=? 222) && negb (n =? 215)))%nat
  then ascii_of_nat (n + 32) else c.

Fixpoint toLowerCase (s : string) : string :=
  match s with
  | EmptyString => EmptyString
  | String c rest => String (lower c) (toLowerCase rest)
  end.

(** The alphabet in lower case. *)
Definition lower_characters : string := "abcdefghijklmnopqrstuvwxyz0123456789".

(** [generateRandomEmail(domain = 'example.com')] *)
Definition generateRandomEmail (domain : value) : string :=
  let domain := default_param domain (VStr "example.com") in
  let username := toLowerCase (generateRandomString 8) in
  username ++ "@" ++ js_toString domain.

End Random.

End TestData.

(* ===================================================================== *)
(** ** Facts about values and property reads *)
(* ===================================================================== *)

Unset Implicit Arguments.

Module ValueFacts.

Import WellFormed.

Lemma strict_eq_bool v b : strict_eq v (VBool b) = true -> v = VBool b.
Proof.
  destruct v; simpl; try discriminate.
  intros H. apply Bool.eqb_prop in H. now subst.
Qed.

Lemma strict_eq_num v n : strict_eq v (VNum n) = true -> v = VNum n.
Proof.
  destruct v; simpl; try discriminate.
  intros H. apply Z.eqb_eq in H. now subst.
Qed.

Lemma typeof_number v : (js_typeof v =? "number")%string = true -> exists n, v = VNum n.
Proof.
  destruct v; simpl; try discriminate; eauto.
  destruct (name =? "__proto__")%string; discriminate.
Qed.

Lemma typeof_string v : (js_typeof v =? "string")%string = true -> exists s, v = VStr s.
Proof.
  destruct v; simpl; try discriminate; eauto.
  destruct (name =? "__proto__")%string; discriminate.
Qed.

Lemma truthy_default_null v : truthy (default_param v VNull) = truthy v.
Proof. now destruct v. Qed.

Lemma default_null_truthy v : truthy v = true -> default_param v VNull = v.
Proof. now destruct v. Qed.

Lemma inherited_not_data k : is_data (inherited k) = false.
Proof. unfold inherited. now destruct (is_inherited k). Qed.

(** A read of anything but [null] and [undefined] returns. *)
Lemma js_get_field o k : truthy o = true -> js_get o k = Returns (field o k).
Proof.
  unfold field. destruct o; simpl; try discriminate; intros _; try reflexivity.
  now destruct (own_property k props).
Qed.

Lemma js_get_obj props k : js_get (VObj props) k = Returns (field (VObj props) k).
Proof. now apply js_get_field. Qed.

Lemma has_field_in o k : has_field o k = true -> js_in k o = Returns true.
Proof.
  unfold has_field. destruct (js_in k o) as [b|e]; [|discriminate].
  now intros ->.
Qed.

Lemma has_field_truthy o k : has_field o k = true -> truthy o = true.
Proof. destruct o; simpl; auto; discriminate. Qed.

(** Data read from [o] is an own property of [o]. *)
Lemma data_is_own o k : is_data (field o k) = true -> has_field o k = true.
Proof.
  unfold field, has_field.
  destruct o; simpl; try discriminate; try (now rewrite inherited_not_data).
  destruct (own_property k props); [reflexivity|].
  now rewrite inherited_not_data.
Qed.

Lemma data_of_object o k :
  is_data (field o k) = true -> exists props, o = VObj props.
Proof.
  unfold field.
  destruct o; simpl; try discriminate; try (now rewrite inherited_not_data).
  eauto.
Qed.

(** Only an object has a field that nothing inherits. *)
Lemma has_own_field o k :
  has_field o k = true -> is_inherited k = false -> is_data o = true.
Proof.
  unfold has_field. destruct o; simpl; try discriminate; auto.
  intros H1 H2. congruence.
Qed.

(** *** Setting a property *)

Lemma own_property_set_same k v props :
  own_property k (set_property k v props) = Some v.
Proof.
  induction props as [|[k' v'] rest IH]; simpl.
  - now rewrite String.eqb_refl.
  - destruct (k' =? k)%string eqn:E; simpl; rewrite E; auto.
Qed.

Lemma own_property_set_other k k' v props :
  k' <> k -> own_property k' (set_property k v props) = own_property k' props.
Proof.
  intros Hne. induction props as [|[k0 v0] rest IH]; simpl.
  - destruct (k =? k')%string eqn:E; [|reflexivity].
    apply String.eqb_eq in E. congruence.
  - destruct (k0 =? k)%string eqn:E; simpl.
    + apply String.eqb_eq in E. subst k0.
      destruct (k =? k')%string eqn:E'; [|reflexivity].
      apply String.eqb_eq in E'. congruence.
    + now rewrite IH.
Qed.

Lemma field_with_same props k v : field (with_field (VObj props) k v) k = v.
Proof. unfold field; simpl. now rewrite own_property_set_same. Qed.

Lemma field_with_other props k k' v :
  k' <> k -> field (with_field (VObj props) k v) k' = field (VObj props) k'.
Proof. intros H. unfold field; simpl. now rewrite own_property_set_other. Qed.

Lemma js_in_with props k k' v :
  has_field (VObj props) k = true ->
  js_in k' (with_field (VObj props) k v) = js_in k' (VObj props).
Proof.
  intros Hk. simpl.
  destruct (String.eqb_spec k' k) as [->|Hne].
  - rewrite own_property_set_same.
    unfold has_field in Hk; simpl in Hk.
    destruct (own_property k props); [reflexivity|].
    now rewrite Hk.
  - now rewrite own_property_set_other.
Qed.

End ValueFacts.

(* ===================================================================== *)
(** ** The checks of the validator, one by one *)
(* ===================================================================== *)

Module CheckFacts.

Import ApiHelpers WellFormed ValueFacts.

Lemma require_fields_present prefix fields o v :
  forallb (has_field o) fields = true ->
  require_fields prefix fields o v = Returns v.
Proof.
  unfold require_fields. revert v.
  induction fields as [|f rest IH]; simpl; intros v H; [reflexivity|].
  apply andb_prop in H as [Hf Hrest].
  rewrite (has_field_in _ _ Hf). simpl. auto.
Qed.

(** On an object (or an array) no required-field loop throws. *)
Lemma require_fields_returns prefix fields o v :
  is_data o = true -> truthy o = true -> js_typeof o = "object" ->
  exists v', require_fields prefix fields o v = Returns v'.
Proof.
  intros Hd Ht Hty. unfold require_fields. revert v.
  induction fields as [|f rest IH]; simpl; intros v; [eauto|].
  assert (exists b, js_in f o = Returns b) as [b ->].
  { destruct o; simpl in *; try discriminate; eauto.
    destruct (own_property f props); eauto. }
  simpl. apply IH.
Qed.

Lemma check_status_ok response v :
  status_ok response = true -> check_status response v = v.
Proof. unfold status_ok, check_status. now intros ->. Qed.

Lemma check_success_ok body v :
  success_ok body = true -> check_success body v = Returns v.
Proof.
  unfold success_ok, check_success. intros H.
  pose proof (strict_eq_bool _ _ H) as Hs.
  assert (Hd : is_data (field body "success") = true) by now rewrite Hs.
  destruct (data_of_object _ _ Hd) as [props ->].
  rewrite js_get_obj. cbn [JS.bind]. now rewrite H.
Qed.

Lemma check_message_ok body v :
  message_ok body = true -> check_message body v = Returns v.
Proof.
  unfold message_ok, check_message. intros H.
  destruct (field body "message") as [| | | |s| | |] eqn:Hm; try discriminate.
  assert (Hd : is_data (field body "message") = true) by now rewrite Hm.
  destruct (data_of_object _ _ Hd) as [props ->].
  rewrite js_get_obj, Hm. cbn [JS.bind].
  apply negb_true_iff in H. now rewrite H.
Qed.

(** Without a [message] the message check fails too: what it reads is
    [undefined], which is no string. *)
Lemma check_message_missing props v :
  has_field (VObj props) "message" = false ->
  check_message (VObj props) v = Returns (push_error msg_message (set_invalid v)).
Proof.
  unfold has_field, check_message. simpl.
  destruct (own_property "message" props); [discriminate|reflexivity].
Qed.

Lemma check_expected_ok user expectedUser v :
  truthy user = true ->
  expected_ok user expectedUser = true ->
  check_expected user (default_param expectedUser VNull) v = Returns v.
Proof.
  intros Hu. unfold expected_ok, check_expected.
  rewrite truthy_default_null.
  destruct (truthy expectedUser) eqn:He; [|reflexivity].
  rewrite (default_null_truthy _ He). simpl negb. rewrite orb_false_l.
  unfold matches. intros H. apply andb_prop in H as [Hemail Hname].
  rewrite !(js_get_field _ _ He), !(js_get_field _ _ Hu). cbn [JS.bind].
  assert (E1 : truthy (field expectedUser "email")
               && negb (strict_eq (field user "email") (field expectedUser "email")) = false).
  { destruct (truthy (field expectedUser "email")); simpl in *; [now rewrite Hemail|reflexivity]. }
  assert (E2 : truthy (field expectedUser "name")
               && negb (strict_eq (field user "name") (field expectedUser "name")) = false).
  { destruct (truthy (field expectedUser "name")); simpl in *; [now rewrite Hname|reflexivity]. }
  now rewrite E1, E2.
Qed.

Lemma check_user_ok data expectedUser v :
  truthy data = true ->
  user_ok (field data "user") expectedUser = true ->
  check_user data (default_param expectedUser VNull) v = Returns v.
Proof.
  intros Hd. unfold user_ok, check_user. intros H.
  rewrite !andb_true_iff in H. destruct H as [[[[Hf Hid] Hem] Hact] Hexp].
  rewrite (js_get_field _ _ Hd). cbn [JS.bind].
  set (user := field data "user") in *.
  assert (Hu : truthy user = true).
  { simpl in Hf. apply andb_prop in Hf as [Hf _]. now apply has_field_truthy in Hf. }
  rewrite Hu, require_fields_present by assumption. cbn [JS.bind].
  rewrite !(js_get_field _ _ Hu). cbn [JS.bind].
  rewrite Hid, Hem, Hact.
  simpl negb. rewrite !andb_false_r.
  now apply check_expected_ok.
Qed.

Lemma check_token_ok data v :
  truthy data = true ->
  token_ok data = true -> check_token data v = Returns v.
Proof.
  intros Hd. unfold token_ok, check_token. intros H.
  rewrite (js_get_field _ _ Hd). cbn [JS.bind].
  now rewrite H, andb_false_r.
Qed.

Section Expiry.
Variable Date_parse : string -> option Z.
Variable now : Z.

Lemma check_expiry_past data v t :
  truthy data = true ->
  truthy (field data "access_token_expire_at") = true ->
  Date_getTime Date_parse (field data "access_token_expire_at") = Some t ->
  t <= now ->
  check_expiry Date_parse now data v = Returns (push_warning msg_expired v).
Proof.
  intros Hd He Ht Hle. unfold check_expiry.
  rewrite (js_get_field _ _ Hd). cbn [JS.bind]. rewrite He, Ht.
  apply Z.leb_le in Hle. now rewrite Hle.
Qed.

Lemma check_expiry_future data v t :
  truthy data = true ->
  Date_getTime Date_parse (field data "access_token_expire_at") = Some t ->
  now < t ->
  check_expiry Date_parse now data v = Returns v.
Proof.
  intros Hd Ht Hlt. unfold check_expiry.
  rewrite (js_get_field _ _ Hd). cbn [JS.bind]. rewrite Ht.
  apply Z.leb_gt in Hlt. rewrite Hlt.
  now destruct (truthy (field data "access_token_expire_at")).
Qed.

(** A well-formed [data] object passes every check up to the expiry
    date. *)
Lemma check_data_ok body expectedUser v :
  data_ok (field body "data") expectedUser = true ->
  truthy (field body "data") = true /\
  has_field body "data" = true /\
  check_data Date_parse now body (default_param expectedUser VNull) v
  = check_expiry Date_parse now (field body "data") v.
Proof.
  unfold data_ok. intros H.
  rewrite !andb_true_iff in H. destruct H as [[Hf Huser] Htok].
  set (data := field body "data") in *.
  assert (Hd : truthy data = true).
  { simpl in Hf. apply andb_prop in Hf as [Hf _]. now apply has_field_truthy in Hf. }
  assert (Hdd : is_data data = true).
  { simpl in Hf. apply andb_prop in Hf as [Hf _]. now apply has_own_field in Hf. }
  split; [assumption|]. split; [now apply data_is_own|].
  destruct (data_of_object _ _ Hdd) as [props Hbody].
  unfold check_data. rewrite Hbody, js_get_obj, <- Hbody. cbn [JS.bind].
  fold data. rewrite Hd.
  rewrite require_fields_present by assumption. cbn [JS.bind].
  rewrite check_user_ok by assumption. cbn [JS.bind].
  rewrite check_token_ok by assumption. reflexivity.
Qed.

(** A well-formed response passes every check up to the expiry date. *)
Lemma well_formed_upto_expiry response expectedUser :
  well_formed response expectedUser = true ->
  truthy (field (body response) "data") = true /\
  validateLoginResponse Date_parse now response expectedUser
  = check_expiry Date_parse now (field (body response) "data") fresh.
Proof.
  unfold well_formed, envelope_ok. intros H.
  rewrite !andb_true_iff in H. destruct H as [[[Hst Hsucc] Hmsg] Hdata].
  destruct (check_data_ok _ _ fresh Hdata) as (Hd & Hhas & Hcheck).
  split; [assumption|].
  unfold validateLoginResponse.
  rewrite check_status_ok by assumption.
  rewrite require_fields_present.
  2:{ simpl. rewrite !andb_true_iff. repeat split; [| |assumption].
      - apply data_is_own. apply strict_eq_bool in Hsucc. now rewrite Hsucc.
      - apply data_is_own. unfold message_ok in Hmsg.
        now destruct (field (body response) "message"). }
  cbn [JS.bind]. rewrite check_success_ok by assumption. cbn [JS.bind].
  rewrite check_message_ok by assumption. cbn [JS.bind].
  apply Hcheck.
Qed.

(** The same response without its [message] reaches the expiry date with
    two errors. *)
Lemma without_message_upto_expiry response expectedUser :
  well_formed_but_message response expectedUser = true ->
  truthy (field (body response) "data") = true /\
  validateLoginResponse Date_parse now response expectedUser
  = check_expiry Date_parse now (field (body response) "data")
      {| isValid := false;
         errors := ["Missing required field: message"; msg_message];
         warnings := [] |}.
Proof.
  unfold well_formed_but_message, envelope_ok. intros H.
  rewrite !andb_true_iff in H. destruct H as [[[Hst Hsucc] Hmsg] Hdata].
  apply negb_true_iff in Hmsg.
  destruct (check_data_ok _ _
              {| isValid := false;
                 errors := ["Missing required field: message"; msg_message];
                 warnings := [] |} Hdata) as (Hd & Hhas & Hcheck).
  split; [assumption|].
  assert (Hs : has_field (body response) "success" = true).
  { apply data_is_own. apply strict_eq_bool in Hsucc. now rewrite Hsucc. }
  assert (Hobj : exists props, body response = VObj props).
  { apply (data_of_object _ "success").
    apply strict_eq_bool in Hsucc. now rewrite Hsucc. }
  destruct Hobj as [props Hbody].
  unfold validateLoginResponse.
  rewrite check_status_ok by assumption.
  unfold require_fields, requiredFields. cbn [forEach].
  rewrite (has_field_in _ _ Hs). cbn [JS.bind negb].
  assert (Hm : js_in "message" (body response) = Returns false).
  { rewrite Hbody in *. unfold has_field in Hmsg. simpl in *.
    destruct (own_property "message" props); [discriminate|reflexivity]. }
  rewrite Hm, (has_field_in _ _ Hhas). cbn [JS.bind negb].
  rewrite check_success_ok by assumption. cbn [JS.bind].
  rewrite Hbody, check_message_missing by (now rewrite <- Hbody).
  rewrite <- Hbody. cbn [JS.bind]. apply Hcheck.
Qed.

End Expiry.

End CheckFacts.

(* ===================================================================== *)
(** ** What a check leaves alone *)
(* ===================================================================== *)

Module FrameFacts.

Import ApiHelpers WellFormed ValueFacts.

Lemma js_get_with_same props k v :
  js_get (with_field (VObj props) k v) k = Returns v.
Proof. simpl. now rewrite own_property_set_same. Qed.

Lemma js_get_with_other props k k' v :
  k' <> k -> js_get (with_field (VObj props) k v) k' = js_get (VObj props) k'.
Proof. intros H. simpl. now rewrite own_property_set_other. Qed.

(** The required-field loops see an object through [in] alone. *)
Lemma require_fields_ext prefix fields o o' v :
  (forall k, js_in k o' = js_in k o) ->
  require_fields prefix fields o' v = require_fields prefix fields o v.
Proof.
  intros Hin. unfold require_fields. revert v.
  induction fields as [|f rest IH]; intros v; cbn [forEach]; [reflexivity|].
  rewrite Hin. destruct (js_in f o) as [b|e]; cbn [JS.bind]; auto.
Qed.

(** On an object a required-field loop returns, and adds no warning. *)
Lemma require_fields_on_object prefix fields props v :
  exists v', require_fields prefix fields (VObj props) v = Returns v'
             /\ warnings v' = warnings v.
Proof.
  unfold require_fields. revert v.
  induction fields as [|f rest IH]; intros v; cbn [forEach]; [eauto|].
  assert (exists b, js_in f (VObj props) = Returns b) as [b ->].
  { simpl. destruct (own_property f props); eauto. }
  cbn [JS.bind].
  destruct (IH (if negb b then push_error (prefix ++ f) (set_invalid v) else v))
    as (v' & Hrun & Hw).
  exists v'. split; [assumption|].
  rewrite Hw. now destruct b.
Qed.

Lemma check_status_warnings response v :
  warnings (check_status response v) = warnings v.
Proof. unfold check_status. now destruct (negb _). Qed.

Lemma check_success_on_object props v :
  exists v', check_success (VObj props) v = Returns v' /\ warnings v' = warnings v.
Proof.
  unfold check_success. rewrite js_get_obj. cbn [JS.bind].
  eexists. split; [reflexivity|]. now destruct (negb _).
Qed.

Lemma check_message_on_object props v :
  exists v', check_message (VObj props) v = Returns v' /\ warnings v' = warnings v.
Proof.
  unfold check_message. rewrite js_get_obj. cbn [JS.bind].
  eexists. split; [reflexivity|].
  now destruct (match field (VObj props) "message" with VStr s => _ | _ => _ end).
Qed.

Lemma ahead_push_error msg e v v' :
  ahead msg v v' -> ahead msg (push_error e v) (push_error e v').
Proof. intros (H1 & H2 & H3). repeat split; simpl; congruence. Qed.

Lemma ahead_push_warning msg w v v' :
  ahead msg v v' -> ahead msg (push_warning w v) (push_warning w v').
Proof.
  intros (H1 & H2 & H3). repeat split; simpl; try congruence.
  now rewrite H3.
Qed.

Lemma ahead_if msg (c : bool) f v v' :
  (forall a b, ahead msg a b -> ahead msg (f a) (f b)) ->
  ahead msg v v' ->
  ahead msg (if c then f v else v) (if c then f v' else v').
Proof. destruct c; auto. Qed.

(** The checks after [is_active] do the same to both states. *)
Lemma check_expected_ahead msg user expectedUser v v' :
  truthy user = true -> ahead msg v v' ->
  exists r r', check_expected user expectedUser v = Returns r
               /\ check_expected user expectedUser v' = Returns r'
               /\ ahead msg r r'.
Proof.
  intros Hu Ha. unfold check_expected.
  destruct (truthy expectedUser) eqn:He; [|eauto].
  rewrite !(js_get_field _ _ He), !(js_get_field _ _ Hu). cbn [JS.bind].
  do 2 eexists. split; [reflexivity|]. split; [reflexivity|].
  apply ahead_if; [intros; now apply ahead_push_warning|].
  apply ahead_if; [intros; now apply ahead_push_error|assumption].
Qed.

Lemma check_token_ahead msg data v v' :
  truthy data = true -> ahead msg v v' ->
  exists r r', check_token data v = Returns r
               /\ check_token data v' = Returns r'
               /\ ahead msg r r'.
Proof.
  intros Hd Ha. unfold check_token.
  rewrite (js_get_field _ _ Hd). cbn [JS.bind].
  do 2 eexists. split; [reflexivity|]. split; [reflexivity|].
  apply ahead_if; [intros; now apply ahead_push_warning|assumption].
Qed.

Lemma check_expiry_ahead Date_parse now msg data v v' :
  truthy data = true -> ahead msg v v' ->
  exists r r', check_expiry Date_parse now data v = Returns r
               /\ check_expiry Date_parse now data v' = Returns r'
               /\ ahead msg r r'.
Proof.
  intros Hd Ha. unfold check_expiry.
  rewrite (js_get_field _ _ Hd). cbn [JS.bind].
  do 2 eexists. split; [reflexivity|]. split; [reflexivity|].
  destruct (truthy (field data "access_token_expire_at")); [|assumption].
  destruct (Date_getTime Date_parse (field data "access_token_expire_at")) as [t|].
  - destruct (t <=? now); [now apply ahead_push_warning|assumption].
  - now apply ahead_push_error.
Qed.

End FrameFacts.

(* ===================================================================== *)
(** ** The validator on whole responses *)
(* ===================================================================== *)

Module ValidatorFacts.

Import ApiHelpers WellFormed ValueFacts CheckFacts Samples.

(** C3.  The response of the specification's first scenario (status 200,
    the admin user, token [abc], expiry in 2999) validated against
    [{email: 'admin@admin.com'}] at any time before the expiry date is
    valid, without errors and without warnings. *)
Theorem example_response_is_valid (Date_parse : string -> option Z) (now t : Z) :
  Date_parse "2999-01-01T00:00:00.000000Z" = Some t ->
  now < t ->
  validateLoginResponse Date_parse now (login_response admin year_2999) expected_admin
  = Returns {| isValid := true; errors := []; warnings := [] |}.
Proof.
  intros Hparse Hlt.
  destruct (well_formed_upto_expiry Date_parse now
              (login_response admin year_2999) expected_admin eq_refl) as [Hd ->].
  now apply check_expiry_future with (t := t).
Qed.

Lemma example_response_is_valid_witness :
  IsoDate.parse "2999-01-01T00:00:00.000000Z" = Some 32472144000000 /\
  clock < 32472144000000 /\
  validateLoginResponse IsoDate.parse clock (login_response admin year_2999) expected_admin
  = Returns {| isValid := true; errors := []; warnings := [] |}.
Proof.
  split; [reflexivity|]. split; [reflexivity|].
  apply (example_response_is_valid IsoDate.parse clock 32472144000000);
    reflexivity.
Defined.

(** C4.  On a response that is well-formed in everything else, a token
    expiry that is present and is a date at or before the current time
    gives a valid result with no error and the one warning that the token
    appears to be expired. *)
Theorem expired_token_only_warns (Date_parse : string -> option Z) (now t : Z)
    (response : Response) (expectedUser : value) :
  well_formed response expectedUser = true ->
  truthy (field (field (body response) "data") "access_token_expire_at") = true ->
  Date_getTime Date_parse
    (field (field (body response) "data") "access_token_expire_at") = Some t ->
  t <= now ->
  validateLoginResponse Date_parse now response expectedUser
  = Returns {| isValid := true; errors := []; warnings := [msg_expired] |}.
Proof.
  intros Hwf Hpresent Hdate Hpast.
  destruct (well_formed_upto_expiry Date_parse now response expectedUser Hwf)
    as [Hd ->].
  now rewrite (check_expiry_past Date_parse now _ fresh t Hd Hpresent Hdate Hpast).
Qed.

Lemma expired_token_only_warns_witness :
  validateLoginResponse IsoDate.parse clock (login_response admin year_2024) expected_admin
  = Returns {| isValid := true; errors := []; warnings := [msg_expired] |}.
Proof.
  apply (expired_token_only_warns IsoDate.parse clock 1704067200000
           (login_response admin year_2024) expected_admin);
    [reflexivity | reflexivity | reflexivity | discriminate].
Defined.

(** C2, as the code has it.  A response with status 200 that is
    well-formed except that its body has no [message] key is invalid with
    two errors, the missing field and the message that is not a non-empty
    string, and no warning. *)
Theorem missing_message_reports_two_errors (Date_parse : string -> option Z)
    (now t : Z) (response : Response) (expectedUser : value) :
  well_formed_but_message response expectedUser = true ->
  Date_getTime Date_parse
    (field (field (body response) "data") "access_token_expire_at") = Some t ->
  now < t ->
  validateLoginResponse Date_parse now response expectedUser
  = Returns {| isValid := false;
               errors := ["Missing required field: message";
                          "Message field should be a non-empty string"];
               warnings := [] |}.
Proof.
  intros Hwf Hdate Hfuture.
  destruct (without_message_upto_expiry Date_parse now response expectedUser Hwf)
    as [Hd ->].
  now apply check_expiry_future with (t := t).
Qed.

Lemma missing_message_reports_two_errors_witness :
  validateLoginResponse IsoDate.parse clock response_without_message expected_admin
  = Returns {| isValid := false;
               errors := ["Missing required field: message";
                          "Message field should be a non-empty string"];
               warnings := [] |}.
Proof.
  apply (missing_message_reports_two_errors IsoDate.parse clock 32472144000000
           response_without_message expected_admin);
    reflexivity.
Defined.

(** C2, as the claim has it, fails: the sample response without
    [message] is well-formed in everything else, and its errors are not
    the single missing-field error. *)
Lemma missing_message_not_one_error :
  well_formed_but_message response_without_message expected_admin = true /\
  has_field (body response_without_message) "message" = false /\
  validateLoginResponse IsoDate.parse clock response_without_message expected_admin
  <> Returns {| isValid := false;
                errors := ["Missing required field: message"];
                warnings := [] |}.
Proof.
  split; [reflexivity|]. split; [reflexivity|].
  intros H. vm_compute in H. discriminate H.
Qed.

(** C1 at the inputs on which the code breaks it: with the user id sent
    as the string ["1"] the result carries the error about the id and is
    still marked valid; the same happens for an email that is no string,
    for an email other than the expected one, and for an expiry that is
    no date. *)
Theorem isValid_true_with_an_error :
  validateLoginResponse IsoDate.parse clock
    (login_response admin_string_id year_2999) expected_admin
  = Returns {| isValid := true;
               errors := ["User ID should be a number"];
               warnings := [] |}
  /\ validateLoginResponse IsoDate.parse clock
       (login_response admin_numeric_email year_2999) VNull
     = Returns {| isValid := true;
                  errors := ["User email should be a string"];
                  warnings := [] |}
  /\ validateLoginResponse IsoDate.parse clock
       (login_response admin year_2999) expected_other
     = Returns {| isValid := true;
                  errors := ["Expected email other@admin.com, got admin@admin.com"];
                  warnings := [] |}
  /\ validateLoginResponse IsoDate.parse clock
       (login_response admin no_date) expected_admin
     = Returns {| isValid := true;
                  errors := ["Invalid access_token_expire_at date format"];
                  warnings := [] |}.
Proof. repeat split; vm_compute; reflexivity. Qed.

End ValidatorFacts.

(* ===================================================================== *)
(** ** Soft deviations and absent data *)
(* ===================================================================== *)

Module SoftFacts.

Import ApiHelpers WellFormed ValueFacts CheckFacts FrameFacts Samples.

(** C5.  Whatever else a response holds, when its
    [body.data.user.is_active] is 2 and the validator returns a result,
    the validator also returns on the same response carrying [is_active]
    1, and compared with that one the result has the same [isValid], the
    same errors, and one warning more: the one about [is_active]. *)
Theorem is_active_two_only_warns (Date_parse : string -> option Z) (now : Z)
    (response : Response) (expectedUser : value) (r : Validation) :
  field (field (field (body response) "data") "user") "is_active" = VNum 2 ->
  validateLoginResponse Date_parse now response expectedUser = Returns r ->
  exists r',
    validateLoginResponse Date_parse now (with_is_active response (VNum 1))
      expectedUser = Returns r'
    /\ isValid r = isValid r'
    /\ errors r = errors r'
    /\ warnings r = "User is_active should be 0, 1, true, or false" :: warnings r'.
Proof.
  intros Hact.
  (* the three records on the path are objects *)
  assert (Hu : is_data (field (field (field (body response) "data") "user") "is_active") = true)
    by now rewrite Hact.
  destruct (data_of_object _ _ Hu) as [uprops Huser].
  assert (Hd : is_data (field (field (body response) "data") "user") = true)
    by now rewrite Huser.
  destruct (data_of_object _ _ Hd) as [dprops Hdata].
  assert (Hb : is_data (field (body response) "data") = true)
    by now rewrite Hdata.
  destruct (data_of_object _ _ Hb) as [bprops Hbody].
  apply data_is_own in Hu, Hd, Hb.
  unfold with_is_active, validateLoginResponse. cbn [status body].
  rewrite Hbody in Hdata, Huser, Hact, Hu, Hd, Hb |- *.
  rewrite Hdata in Huser, Hact, Hu, Hd |- *.
  rewrite Huser in Hact, Hu |- *.
  set (user' := with_field (VObj uprops) "is_active" (VNum 1)).
  set (data' := with_field (VObj dprops) "user" user').
  (* the checks before [data]: the same on both responses *)
  unfold check_status. cbn [status].
  set (v0 := if negb (strict_eq (status response) (VNum 200)) then _ else fresh).
  assert (W0 : warnings v0 = []) by (subst v0; now destruct (negb _)).
  rewrite (require_fields_ext _ _ (VObj bprops) (with_field (VObj bprops) "data" data'))
    by (intros k; now apply js_in_with).
  destruct (require_fields_on_object "Missing required field: " requiredFields bprops v0)
    as (v1 & E1 & W1).
  rewrite E1. cbn [JS.bind].
  unfold check_success, check_message.
  rewrite !js_get_with_other by discriminate.
  rewrite !js_get_obj. cbn [JS.bind].
  set (v2 := if negb (strict_eq (field (VObj bprops) "success") (VBool true))
             then _ else v1).
  set (v3 := if (_ : bool) then push_error msg_message (set_invalid v2) else v2).
  assert (W3 : warnings v3 = []).
  { subst v3 v2.
    repeat match goal with
           | |- context [if ?c then _ else _] => destruct c
           end; simpl; congruence. }
  clearbody v3. clear v2 E1 W1 v1 W0. clearbody v0.
  (* the [data] object *)
  unfold check_data. rewrite js_get_with_same, js_get_obj, Hdata.
  cbn [JS.bind]. change (truthy data') with true. cbn [truthy].
  rewrite (require_fields_ext _ _ (VObj dprops) data')
    by (intros k; now apply js_in_with).
  destruct (require_fields_on_object "Missing required data field: "
              dataRequiredFields dprops v3) as (v4 & E4 & W4).
  rewrite E4. cbn [JS.bind].
  (* the user *)
  unfold check_user. unfold data' at 1. rewrite js_get_with_same, js_get_obj.
  rewrite Huser. cbn [JS.bind]. change (truthy user') with true. cbn [truthy].
  rewrite (require_fields_ext _ _ (VObj uprops) user')
    by (intros k; now apply js_in_with).
  destruct (require_fields_on_object "Missing required user field: "
              userRequiredFields uprops v4) as (v5 & E5 & W5).
  rewrite E5. cbn [JS.bind].
  unfold user' at 1 2 3.
  rewrite !js_get_with_other by discriminate.
  rewrite js_get_with_same, !js_get_obj. cbn [JS.bind].
  rewrite Hact.
  set (v6 := if truthy (field (VObj uprops) "id") && _ then _ else v5).
  set (v7 := if truthy (field (VObj uprops) "email") && _ then _ else v6).
  assert (W7 : warnings v7 = []).
  { subst v7 v6.
    repeat match goal with
           | |- context [if ?c then _ else _] => destruct c
           end; simpl; congruence. }
  clearbody v7. clear v6.
  change (truthy (VNum 2) && negb (includes [VNum 0; VNum 1; VBool true; VBool false] (VNum 2)))
    with true.
  change (truthy (VNum 1) && negb (includes [VNum 0; VNum 1; VBool true; VBool false] (VNum 1)))
    with false.
  cbn iota.
  assert (A7 : ahead msg_is_active (push_warning msg_is_active v7) v7).
  { repeat split. simpl. now rewrite W7. }
  (* the checks after [is_active] read the same values from both *)
  assert (Hexp : forall w, check_expected user' (default_param expectedUser VNull) w
                           = check_expected (VObj uprops) (default_param expectedUser VNull) w).
  { intros w. unfold check_expected, user'.
    now rewrite !js_get_with_other by discriminate. }
  assert (Htok : forall w, check_token data' w = check_token (VObj dprops) w).
  { intros w. unfold check_token, data'.
    now rewrite js_get_with_other by discriminate. }
  assert (Hexy : forall w, check_expiry Date_parse now data' w
                           = check_expiry Date_parse now (VObj dprops) w).
  { intros w. unfold check_expiry, data'.
    now rewrite js_get_with_other by discriminate. }
  rewrite Hexp.
  destruct (check_expected_ahead msg_is_active (VObj uprops)
              (default_param expectedUser VNull) _ _ eq_refl A7)
    as (a8 & b8 & Ea8 & Eb8 & A8).
  rewrite Ea8, Eb8. cbn [JS.bind].
  rewrite Htok.
  destruct (check_token_ahead msg_is_active (VObj dprops) _ _ eq_refl A8)
    as (a9 & b9 & Ea9 & Eb9 & A9).
  rewrite Ea9, Eb9. cbn [JS.bind].
  rewrite Hexy.
  destruct (check_expiry_ahead Date_parse now msg_is_active (VObj dprops) _ _ eq_refl A9)
    as (r1 & r' & Er & Er' & (Hv & He & Hw)).
  rewrite Er, Er'. intros Hret. injection Hret as <-.
  exists r'. repeat split; assumption.
Qed.

Lemma is_active_two_only_warns_witness :
  exists r',
    validateLoginResponse IsoDate.parse clock
      (with_is_active
         (login_response (with_field admin "is_active" (VNum 2)) year_2999)
         (VNum 1))
      expected_admin = Returns r'
    /\ true = isValid r'
    /\ [] = errors r'
    /\ ["User is_active should be 0, 1, true, or false"]
       = "User is_active should be 0, 1, true, or false" :: warnings r'.
Proof.
  apply (is_active_two_only_warns IsoDate.parse clock
           (login_response (with_field admin "is_active" (VNum 2)) year_2999)
           expected_admin
           {| isValid := true; errors := [];
              warnings := ["User is_active should be 0, 1, true, or false"] |}).
  - reflexivity.
  - vm_compute. reflexivity.
Defined.

(** C8.  When the body has a [data] key whose value is falsy ([null],
    [false], 0, the empty string), the nested checks change nothing,
    every result the validator returns is without warnings and its errors
    do not include a missing [data] field, and when the status, [success]
    and [message] checks pass the validator returns the valid result with
    no error at all. *)
Theorem falsy_data_skips_nested_checks (Date_parse : string -> option Z) (now : Z)
    (response : Response) (expectedUser : value)
    (props : list (string * value)) (data : value) :
  body response = VObj props ->
  own_property "data" props = Some data ->
  truthy data = false ->
  (forall v, check_data Date_parse now (body response)
               (default_param expectedUser VNull) v = Returns v)
  /\ (forall r,
        validateLoginResponse Date_parse now response expectedUser = Returns r ->
        ~ In "Missing required field: data" (errors r)
        /\ warnings r = [])
  /\ (status_ok response = true ->
      success_ok (body response) = true ->
      message_ok (body response) = true ->
      validateLoginResponse Date_parse now response expectedUser
      = Returns {| isValid := true; errors := []; warnings := [] |}).
Proof.
  intros Hbody Hown Hfalsy.
  assert (Hskip : forall v, check_data Date_parse now (body response)
                              (default_param expectedUser VNull) v = Returns v).
  { intros v. unfold check_data. rewrite Hbody. simpl js_get. rewrite Hown.
    cbn [JS.bind]. now rewrite Hfalsy. }
  assert (Hhas : has_field (body response) "data" = true).
  { rewrite Hbody. unfold has_field. simpl. now rewrite Hown. }
  split; [exact Hskip|]. split.
  - unfold validateLoginResponse.
    unfold require_fields, requiredFields. cbn [forEach].
    rewrite (has_field_in _ _ Hhas).
    rewrite Hbody in Hskip |- *.
    unfold check_success, check_message. rewrite !js_get_obj.
    assert (Hin : forall k, exists b, js_in k (VObj props) = Returns b).
    { intros k. simpl. destruct (own_property k props); eauto. }
    destruct (Hin "success") as [b1 ->]. destruct (Hin "message") as [b2 ->].
    cbn [JS.bind negb]. rewrite Hskip.
    intros r Hr. injection Hr as <-.
    unfold check_status.
    repeat match goal with
           | |- context [if ?c then _ else _] => destruct c
           end; simpl; (split; [|reflexivity]); intuition discriminate.
  - intros Hst Hsucc Hmsg.
    unfold validateLoginResponse.
    rewrite check_status_ok by assumption.
    rewrite require_fields_present.
    2:{ simpl. rewrite !andb_true_iff. repeat split; [| |assumption].
        - apply data_is_own. apply strict_eq_bool in Hsucc. now rewrite Hsucc.
        - apply data_is_own. unfold message_ok in Hmsg.
          now destruct (field (body response) "message"). }
    cbn [JS.bind]. rewrite check_success_ok by assumption. cbn [JS.bind].
    rewrite check_message_ok by assumption. cbn [JS.bind].
    apply Hskip.
Qed.

Lemma falsy_data_skips_nested_checks_witness :
  validateLoginResponse IsoDate.parse clock response_null_data expected_admin
  = Returns {| isValid := true; errors := []; warnings := [] |}.
Proof.
  refine (proj2 (proj2 (falsy_data_skips_nested_checks IsoDate.parse clock
                          response_null_data expected_admin _ VNull
                          eq_refl eq_refl eq_refl)) eq_refl eq_refl eq_refl).
Defined.

End SoftFacts.

(* ===================================================================== *)
(** ** The half of the validity invariant that holds *)
(* ===================================================================== *)

Module InvariantFacts.

Import ApiHelpers WellFormed.

Lemma fresh_consistent : invalid_has_error fresh.
Proof. unfold invalid_has_error. discriminate. Qed.

Lemma push_error_consistent msg v : invalid_has_error (push_error msg v).
Proof.
  unfold invalid_has_error. simpl. intros _.
  destruct (errors v); discriminate.
Qed.

Lemma push_warning_consistent msg v :
  invalid_has_error v -> invalid_has_error (push_warning msg v).
Proof. unfold invalid_has_error. simpl. auto. Qed.

Create HintDb consistent.

#[local] Hint Resolve fresh_consistent push_error_consistent
  push_warning_consistent : consistent.

(** Split a run that returned into the runs of its steps, and the
    conditionals of each step into their cases. *)
Ltac returned_steps :=
  repeat match goal with
         | H : JS.bind ?c _ = Returns _ |- _ =>
             let E := fresh "E" in
             destruct c eqn:E; cbn [JS.bind] in H; [|discriminate H]
         | H : Returns _ = Returns _ |- _ => injection H as <-
         | H : (if ?c then _ else _) = Returns _ |- _ => destruct c
         | |- invalid_has_error (if ?c then _ else _) => destruct c
         | |- invalid_has_error (push_warning _ _) => apply push_warning_consistent
         | |- invalid_has_error (push_error _ _) => apply push_error_consistent
         | |- invalid_has_error (match ?x with Some _ => _ | None => _ end) =>
             destruct x
         end;
  auto with consistent.

Lemma require_fields_consistent prefix fields o v v' :
  invalid_has_error v ->
  require_fields prefix fields o v = Returns v' -> invalid_has_error v'.
Proof.
  unfold require_fields. revert v.
  induction fields as [|f rest IH]; cbn [forEach]; intros v Hv H.
  - now injection H as <-.
  - destruct (js_in f o) as [b|e]; cbn [JS.bind] in H; [|discriminate].
    apply IH in H; [assumption|]. destruct b; simpl; auto with consistent.
Qed.

Lemma check_status_consistent response v :
  invalid_has_error v -> invalid_has_error (check_status response v).
Proof. intros. unfold check_status. returned_steps. Qed.

Lemma check_success_consistent body v v' :
  invalid_has_error v -> check_success body v = Returns v' -> invalid_has_error v'.
Proof. unfold check_success. intros Hv H. returned_steps. Qed.

Lemma check_message_consistent body v v' :
  invalid_has_error v -> check_message body v = Returns v' -> invalid_has_error v'.
Proof. unfold check_message. intros Hv H. returned_steps. Qed.

Lemma check_expected_consistent user expectedUser v v' :
  invalid_has_error v ->
  check_expected user expectedUser v = Returns v' -> invalid_has_error v'.
Proof. unfold check_expected. intros Hv H. returned_steps. Qed.

Lemma check_user_consistent data expectedUser v v' :
  invalid_has_error v ->
  check_user data expectedUser v = Returns v' -> invalid_has_error v'.
Proof.
  unfold check_user. intros Hv H.
  destruct (js_get data "user") as [user|e]; cbn [JS.bind] in H; [|discriminate].
  destruct (truthy user); [|now injection H as <-].
  destruct (require_fields _ _ user v) as [v1|e] eqn:E1;
    cbn [JS.bind] in H; [|discriminate].
  apply require_fields_consistent in E1; [|assumption].
  destruct (js_get user "id") as [id|e]; cbn [JS.bind] in H; [|discriminate].
  destruct (js_get user "email") as [email|e]; cbn [JS.bind] in H; [|discriminate].
  destruct (js_get user "is_active") as [act|e]; cbn [JS.bind] in H; [|discriminate].
  eapply check_expected_consistent; [|exact H].
  returned_steps.
Qed.

Lemma check_token_consistent data v v' :
  invalid_has_error v -> check_token data v = Returns v' -> invalid_has_error v'.
Proof. unfold check_token. intros Hv H. returned_steps. Qed.

Lemma check_expiry_consistent Date_parse now data v v' :
  invalid_has_error v ->
  check_expiry Date_parse now data v = Returns v' -> invalid_has_error v'.
Proof. unfold check_expiry. intros Hv H. returned_steps. Qed.

Lemma check_data_consistent Date_parse now body expectedUser v v' :
  invalid_has_error v ->
  check_data Date_parse now body expectedUser v = Returns v' ->
  invalid_has_error v'.
Proof.
  unfold check_data. intros Hv H.
  destruct (js_get body "data") as [data|e]; cbn [JS.bind] in H; [|discriminate].
  destruct (truthy data); [|now injection H as <-].
  destruct (require_fields _ _ data v) as [v1|e] eqn:E1;
    cbn [JS.bind] in H; [|discriminate].
  apply require_fields_consistent in E1; [|assumption].
  destruct (check_user data expectedUser v1) as [v2|e] eqn:E2;
    cbn [JS.bind] in H; [|discriminate].
  apply check_user_consistent in E2; [|assumption].
  destruct (check_token data v2) as [v3|e] eqn:E3;
    cbn [JS.bind] in H; [|discriminate].
  apply check_token_consistent in E3; [|assumption].
  now apply check_expiry_consistent in H.
Qed.

(** Whatever the input, a result that is marked invalid carries an error:
    every statement that clears [isValid] also pushes one.  (The converse
    is what the checks at lines 443-449, 457-459 and 475-477 break.) *)
Theorem invalid_result_has_error (Date_parse : string -> option Z) (now : Z)
    (response : Response) (expectedUser : value) (r : Validation) :
  validateLoginResponse Date_parse now response expectedUser = Returns r ->
  isValid r = false -> errors r <> [].
Proof.
  unfold validateLoginResponse. intros H.
  destruct (require_fields _ _ (body response) _) as [v1|e] eqn:E1;
    cbn [JS.bind] in H; [|discriminate].
  apply require_fields_consistent in E1;
    [|apply check_status_consistent, fresh_consistent].
  destruct (check_success (body response) v1) as [v2|e] eqn:E2;
    cbn [JS.bind] in H; [|discriminate].
  apply check_success_consistent in E2; [|assumption].
  destruct (check_message (body response) v2) as [v3|e] eqn:E3;
    cbn [JS.bind] in H; [|discriminate].
  apply check_message_consistent in E3; [|assumption].
  now apply check_data_consistent in H.
Qed.

End InvariantFacts.

(* ===================================================================== *)
(** ** Running asynchronous methods *)
(* ===================================================================== *)

Module RunFacts.

Lemma run_bind (E : engine) {A B} (p : prog A) (f : A -> prog B) (w : World E) :
  run E (pbind p f) w
  = match run E p w with
    | (Returns a, w') => run E (f a) w'
    | (Throws e, w') => (Throws e, w')
    end.
Proof.
  revert w. induction p as [a|e|c k IH|x xs k IH]; intros w; simpl; try reflexivity.
  - destruct (perform E c w) as [r w']. apply IH.
  - destruct (perform E (Wait (winner E w x xs)) w) as [r w']. apply IH.
Qed.

Lemma run_try_catch (E : engine) {A} (p : prog A) (h : exn -> prog A) (w : World E) :
  run E (try_catch p h) w
  = match run E p w with
    | (Returns a, w') => (Returns a, w')
    | (Throws e, w') => run E (h e) w'
    end.
Proof.
  revert w. induction p as [a|e|c k IH|x xs k IH]; intros w; simpl; try reflexivity.
  - destruct (perform E c w) as [r w']. apply IH.
  - destruct (perform E (Wait (winner E w x xs)) w) as [r w']. apply IH.
Qed.

Lemma calls_bind (E : engine) {A B} (p : prog A) (f : A -> prog B) (w : World E) :
  calls E (pbind p f) w
  = (calls E p w
     ++ match run E p w with
        | (Returns a, w') => calls E (f a) w'
        | (Throws _, _) => []
        end)%list.
Proof.
  revert w. induction p as [a|e|c k IH|x xs k IH]; intros w; simpl; try reflexivity.
  - destruct (perform E c w) as [r w']. simpl. now rewrite IH.
  - destruct (perform E (Wait (winner E w x xs)) w) as [r w'].
    rewrite IH. simpl. now rewrite app_assoc.
Qed.

Lemma calls_try_catch (E : engine) {A} (p : prog A) (h : exn -> prog A) (w : World E) :
  calls E (try_catch p h) w
  = (calls E p w
     ++ match run E p w with
        | (Returns _, _) => []
        | (Throws e, w') => calls E (h e) w'
        end)%list.
Proof.
  revert w. induction p as [a|e|c k IH|x xs k IH]; intros w; simpl; try reflexivity.
  - destruct (perform E c w) as [r w']. simpl. now rewrite IH.
  - destruct (perform E (Wait (winner E w x xs)) w) as [r w'].
    rewrite IH. simpl. now rewrite app_assoc.
Qed.

(** A step of a sequence that ran to its end ran to its end. *)
Lemma bind_returned (E : engine) {A B} (p : prog A) (f : A -> prog B)
    (w : World E) (b : B) :
  fst (run E (pbind p f) w) = Returns b ->
  exists a w', run E p w = (Returns a, w') /\ fst (run E (f a) w') = Returns b.
Proof.
  rewrite run_bind. destruct (run E p w) as [[a|e] w']; simpl; [eauto|discriminate].
Qed.

(** The race is won by one of the raced waits. *)
Lemma winner_raced (E : engine) (w : World E) (x : wait) (xs : list wait) :
  In (winner E w x xs) (x :: xs).
Proof.
  unfold winner. revert x. induction xs as [|y ys IH]; intros x; simpl.
  - now left.
  - destruct (IH (if settles_after E y w <? settles_after E x w then y else x))
      as [H|H]; auto.
    destruct (settles_after E y w <? settles_after E x w); auto.
Qed.

(** A race none of whose waits is fulfilled rejects, and a [catch] that
    returns turns that into a return. *)
Lemma swallowed_race (E : engine) (w : World E) (x : wait) (xs : list wait) :
  (forall y, In y (x :: xs) -> rejected E w y) ->
  run E (try_catch (Promise_race x xs) (fun _ => Ret tt)) w
  = (Returns tt, snd (perform E (Wait (winner E w x xs)) w)).
Proof.
  intros Hall. destruct (Hall _ (winner_raced E w x xs)) as (e & w' & Hwin).
  simpl. now rewrite Hwin.
Qed.

(** Whatever the race does, the method returns [undefined]. *)
Lemma race_result_dropped (E : engine) (w : World E) (x : wait) (xs : list wait) :
  fst (run E (try_catch (Promise_race x xs) (fun _ => Ret tt)) w) = Returns tt.
Proof.
  simpl. destruct (perform E (Wait (winner E w x xs)) w) as [[[]|e] w'];
    reflexivity.
Qed.

(** The probe pattern: [try { await wait; return true } catch { return false }]. *)
Lemma probe_rejected (E : engine) (w : World E) (x : wait) :
  rejected E w x ->
  fst (run E (try_catch (pbind (await (Wait x)) (fun _ => Ret true))
                (fun _ => Ret false)) w) = Returns false.
Proof. intros (e & w' & H). simpl. now rewrite H. Qed.

Lemma probe_fulfilled (E : engine) (w : World E) (x : wait) :
  fulfilled E w x ->
  fst (run E (try_catch (pbind (await (Wait x)) (fun _ => Ret true))
                (fun _ => Ret false)) w) = Returns true.
Proof. intros (w' & H). simpl. now rewrite H. Qed.

End RunFacts.

(* ===================================================================== *)
(** ** Probes and composite actions *)
(* ===================================================================== *)

Module PageFacts.

Import RunFacts.

(** C7.  Against any engine and from any world, a visibility probe
    returns [false] when the engine's wait for the visible state is
    rejected (the selector did not show within the 5000 ms), and [true]
    when it is fulfilled; in neither case does it throw.  This holds for
    [BasePage.isElementVisible], for [BaseComponent.isElementVisible], and
    for [BaseComponent.isVisible] on a component that has a root
    selector. *)
Theorem visibility_probes_return_booleans (E : engine) (w : World E)
    (sel : selector) (c : BaseComponent.component) :
  (rejected E w (waitForSelector sel (Some visible) 5000) ->
   fst (run E (BasePage.isElementVisible sel) w) = Returns false)
  /\ (fulfilled E w (waitForSelector sel (Some visible) 5000) ->
      fst (run E (BasePage.isElementVisible sel) w) = Returns true)
  /\ (rejected E w (waitFor (BaseComponent.locate c sel) (Some visible) 5000) ->
      fst (run E (BaseComponent.isElementVisible c sel) w) = Returns false)
  /\ (fulfilled E w (waitFor (BaseComponent.locate c sel) (Some visible) 5000) ->
      fst (run E (BaseComponent.isElementVisible c sel) w) = Returns true)
  /\ (BaseComponent.has_root c = true ->
      rejected E w (waitFor (BaseComponent.root c) (Some visible) 5000) ->
      fst (run E (BaseComponent.isVisible c) w) = Returns false)
  /\ (BaseComponent.has_root c = true ->
      fulfilled E w (waitFor (BaseComponent.root c) (Some visible) 5000) ->
      fst (run E (BaseComponent.isVisible c) w) = Returns true).
Proof.
  repeat split.
  - apply probe_rejected.
  - apply probe_fulfilled.
  - apply probe_rejected.
  - apply probe_fulfilled.
  - intros Hroot. unfold BaseComponent.isVisible. rewrite Hroot.
    apply probe_rejected.
  - intros Hroot. unfold BaseComponent.isVisible. rewrite Hroot.
    apply probe_fulfilled.
Qed.

Lemma visibility_probes_return_booleans_witness :
  fst (run (Scripted.scripted Scripted.late_banner)
         (BasePage.isElementVisible (Sel "#missing")) 0) = Returns false
  /\ fst (run (Scripted.scripted Scripted.late_banner)
            (BaseComponent.isVisible
               {| BaseComponent.rootSelector := Some "#banner" |}) 0) = Returns true.
Proof.
  destruct (visibility_probes_return_booleans
              (Scripted.scripted Scripted.late_banner) 0 (Sel "#missing")
              {| BaseComponent.rootSelector := Some "#banner" |})
    as (Hpage & _ & _ & _ & _ & Hroot).
  split.
  - apply Hpage. exists TimeoutError, 5000. reflexivity.
  - apply Hroot; [reflexivity|]. exists 2000. reflexivity.
Defined.

(** A component without root selector is the page: [isVisible] answers
    [true] without asking the engine. *)
Lemma rootless_component_is_visible (E : engine) (w : World E)
    (c : BaseComponent.component) :
  BaseComponent.has_root c = false ->
  run E (BaseComponent.isVisible c) w = (Returns true, w)
  /\ calls E (BaseComponent.isVisible c) w = [].
Proof. intros H. unfold BaseComponent.isVisible. rewrite H. now split. Qed.

(** C6.  Once the actions of the method have run (the form is filled and
    the button clicked), if every wait of the race is rejected, then
    [LoginPage.login] and [ContactPage.submitContactForm] return
    [undefined]: the rejection of the race is not thrown on. *)
Theorem composite_actions_swallow_timeout (E : engine) (w w1 : World E) :
  (forall username password rememberMe,
     run E (LoginPage.login_actions username password rememberMe) w = (Returns tt, w1) ->
     (forall x, In x (fst LoginPage.login_outcomes :: snd LoginPage.login_outcomes) ->
                rejected E w1 x) ->
     fst (run E (LoginPage.login username password rememberMe) w) = Returns tt)
  /\ (forall contactData,
        run E (ContactPage.submit_actions contactData) w = (Returns tt, w1) ->
        (forall x, In x (fst ContactPage.submit_outcomes :: snd ContactPage.submit_outcomes) ->
                   rejected E w1 x) ->
        fst (run E (ContactPage.submitContactForm contactData) w) = Returns tt).
Proof.
  split.
  - intros username password rememberMe Hactions Hnone.
    unfold LoginPage.login. rewrite run_bind, Hactions.
    now rewrite swallowed_race.
  - intros contactData Hactions Hnone.
    unfold ContactPage.submitContactForm. rewrite run_bind, Hactions.
    now rewrite swallowed_race.
Qed.

Lemma composite_actions_swallow_timeout_witness :
  fst (run (Scripted.scripted Scripted.silent_login)
         (LoginPage.login (VStr "user@example.com") (VStr "secret") VUndefined) 0)
  = Returns tt.
Proof.
  apply (proj1 (composite_actions_swallow_timeout
                  (Scripted.scripted Scripted.silent_login) 0 0)).
  - reflexivity.
  - intros x Hx. exists TimeoutError, 5000.
    simpl in Hx. destruct Hx as [<-|[<-|[<-|[<-|[]]]]]; reflexivity.
Defined.

(** The caller cannot tell the outcomes apart: after its actions the
    method returns the same [undefined] whichever wait won and however it
    settled. *)
Lemma composite_actions_return_nothing (E : engine) (w w1 : World E) :
  (forall username password rememberMe,
     run E (LoginPage.login_actions username password rememberMe) w = (Returns tt, w1) ->
     fst (run E (LoginPage.login username password rememberMe) w) = Returns tt)
  /\ (forall contactData,
        run E (ContactPage.submit_actions contactData) w = (Returns tt, w1) ->
        fst (run E (ContactPage.submitContactForm contactData) w) = Returns tt).
Proof.
  split; intros.
  - unfold LoginPage.login. rewrite run_bind, H. apply race_result_dropped.
  - unfold ContactPage.submitContactForm. rewrite run_bind, H.
    apply race_result_dropped.
Qed.

End PageFacts.

(* ===================================================================== *)
(** ** Which inputs a form fill touches *)
(* ===================================================================== *)

Module ContactFacts.

Import RunFacts WellFormed ContactPage.

Lemma selector_eqb_refl (sel : selector) : selector_eqb sel sel = true.
Proof. destruct sel; simpl; [apply String.eqb_refl|reflexivity]. Qed.

Lemma strict_eq_undefined (v : value) :
  strict_eq v VUndefined = true <-> v = VUndefined.
Proof. destruct v; simpl; split; congruence. Qed.

(** *** Calls that are not made *)

Lemma avoids_ret {A} sel (a : A) : avoids sel (Ret a).
Proof. intros E w c []. Qed.

Lemma avoids_throw {A} sel e : avoids sel (@Throw A e).
Proof. intros E w c []. Qed.

Lemma avoids_eval {A} sel (r : completion A) : avoids sel (eval r).
Proof. destruct r; [apply avoids_ret|apply avoids_throw]. Qed.

Lemma avoids_bind {A B} sel (p : prog A) (f : A -> prog B) :
  avoids sel p -> (forall a, avoids sel (f a)) -> avoids sel (pbind p f).
Proof.
  intros Hp Hf E w c. rewrite calls_bind. intros Hin.
  apply in_app_or in Hin as [Hin|Hin]; [now apply (Hp E w)|].
  destruct (run E p w) as [[a|e] w']; [now apply (Hf a E w')|contradiction].
Qed.

Lemma avoids_try_catch {A} sel (p : prog A) (h : exn -> prog A) :
  avoids sel p -> (forall e, avoids sel (h e)) -> avoids sel (try_catch p h).
Proof.
  intros Hp Hh E w c. rewrite calls_try_catch. intros Hin.
  apply in_app_or in Hin as [Hin|Hin]; [now apply (Hp E w)|].
  destruct (run E p w) as [[a|e] w']; [contradiction|now apply (Hh e E w')].
Qed.

Lemma avoids_await sel (c : call) : touches sel c = false -> avoids sel (await c).
Proof.
  intros Hc E w c'. unfold await. simpl.
  destruct (perform E c w) as [r w']. intros [<-|Hin]; [assumption|].
  now apply (avoids_eval sel r E w').
Qed.

(** A call on another selector. *)
Lemma touches_other sel input (c : call) :
  selector_eqb sel input = false -> targets c = [input] -> touches sel c = false.
Proof. intros Hne Ht. unfold touches. rewrite Ht. simpl. now rewrite Hne. Qed.

(** Peel a method down to its engine calls. *)
Ltac avoid_calls :=
  repeat first
    [ apply avoids_ret
    | apply avoids_throw
    | apply avoids_eval
    | apply avoids_await; eapply touches_other; [eassumption|reflexivity]
    | apply avoids_bind; [|intro]
    | apply avoids_try_catch; [|intro]
    | match goal with
      | |- avoids _ (if ?b then _ else _) => destruct b
      end ].

Lemma isElementVisible_avoids sel input :
  selector_eqb sel input = false -> avoids sel (BasePage.isElementVisible input).
Proof. intros H. unfold BasePage.isElementVisible. avoid_calls. Qed.

Lemma fill_input_avoids sel input text :
  selector_eqb sel input = false -> avoids sel (fill_input input text).
Proof. intros H. unfold fill_input, BasePage.waitForElement. avoid_calls. Qed.

Lemma fillPhone_avoids sel phone :
  selector_eqb sel phoneInput = false -> avoids sel (fillPhone phone).
Proof. intros H. unfold fillPhone, BasePage.isElementVisible. avoid_calls. Qed.

Lemma selectInquiryType_avoids sel v :
  selector_eqb sel inquiryTypeSelect = false -> avoids sel (selectInquiryType v).
Proof. intros H. unfold selectInquiryType, BasePage.isElementVisible. avoid_calls. Qed.

Lemma uploadAttachment_avoids sel v :
  selector_eqb sel attachmentInput = false -> avoids sel (uploadAttachment v).
Proof. intros H. unfold uploadAttachment, BasePage.isElementVisible. avoid_calls. Qed.

Lemma set_checkbox_avoids sel box v :
  selector_eqb sel box = false -> avoids sel (set_checkbox box v).
Proof. intros H. unfold set_checkbox, BasePage.isElementVisible. avoid_calls. Qed.

(** A guarded helper makes no call on [sel] when its guard is false or
    the helper makes none. *)
Lemma when_truthy_avoids sel contactData k helper :
  (truthy (field contactData k) = true -> forall v, avoids sel (helper v)) ->
  avoids sel (when_truthy contactData k helper).
Proof.
  unfold when_truthy, field. intros H.
  destruct (js_get contactData k) as [v|e]; simpl; [|apply avoids_throw].
  destruct (truthy v); [now apply H|apply avoids_ret].
Qed.

Lemma when_defined_avoids sel contactData k helper :
  (field contactData k <> VUndefined -> forall v, avoids sel (helper v)) ->
  avoids sel (when_defined contactData k helper).
Proof.
  unfold when_defined, field. intros H.
  destruct (js_get contactData k) as [v|e]; simpl; [|apply avoids_throw].
  destruct (strict_eq v VUndefined) eqn:Eu; simpl; [apply avoids_ret|].
  apply H. intros ->. discriminate.
Qed.

(** The ten guarded steps of [fillContactForm], each either ruled out by
    its guard or aimed at another input. *)
Ltac other_steps :=
  unfold fillContactForm;
  repeat match goal with
         | |- avoids _ (pbind _ _) => apply avoids_bind; [|intro]
         end;
  first [ apply when_truthy_avoids | apply when_defined_avoids ];
  intros Hguard v;
  first [ congruence
        | unfold fillFirstName, fillLastName, fillEmail, fillSubject, fillMessage,
            checkPrivacyPolicy, checkNewsletter;
          first [ apply fill_input_avoids | apply fillPhone_avoids
                | apply selectInquiryType_avoids | apply uploadAttachment_avoids
                | apply set_checkbox_avoids ];
          reflexivity ].

(** *** Calls that are made *)

Lemma reaches_bind_now (E : engine) {A B} sel (p : prog A) (f : A -> prog B)
    (w : World E) :
  reaches E sel p w -> reaches E sel (pbind p f) w.
Proof.
  intros (c & Hin & Hc). exists c. split; [|assumption].
  rewrite calls_bind. apply in_or_app. now left.
Qed.

Lemma reaches_bind_later (E : engine) {A B} sel (p : prog A) (f : A -> prog B)
    (w w' : World E) (a : A) :
  run E p w = (Returns a, w') -> reaches E sel (f a) w' ->
  reaches E sel (pbind p f) w.
Proof.
  intros Hrun (c & Hin & Hc). exists c. split; [|assumption].
  rewrite calls_bind, Hrun. apply in_or_app. now right.
Qed.

(** Every helper starts by waiting for its input. *)
Lemma fill_input_reaches (E : engine) input text (w : World E) :
  reaches E input (fill_input input text) w.
Proof.
  exists (Wait (waitForSelector input (Some visible) BasePage.default_timeout)).
  split.
  - unfold fill_input, BasePage.waitForElement. simpl.
    destruct (perform E _ w). now left.
  - unfold touches. simpl. now rewrite selector_eqb_refl.
Qed.

Lemma probe_reaches (E : engine) {A} input (f : bool -> prog A) (w : World E) :
  reaches E input (pbind (BasePage.isElementVisible input) f) w.
Proof.
  exists (Wait (waitForSelector input (Some visible) 5000)).
  split.
  - unfold BasePage.isElementVisible. simpl.
    destruct (perform E _ w). now left.
  - unfold touches. simpl. now rewrite selector_eqb_refl.
Qed.

Lemma when_truthy_reaches (E : engine) sel contactData k helper (w : World E) :
  truthy (field contactData k) = true ->
  (forall v, reaches E sel (helper v) w) ->
  reaches E sel (when_truthy contactData k helper) w.
Proof.
  unfold when_truthy, field. intros Ht H.
  destruct (js_get contactData k) as [v|e]; simpl in *; [|discriminate].
  rewrite Ht. apply H.
Qed.

Lemma when_defined_reaches (E : engine) sel contactData k helper (w : World E) :
  field contactData k <> VUndefined ->
  (forall v, reaches E sel (helper v) w) ->
  reaches E sel (when_defined contactData k helper) w.
Proof.
  unfold when_defined, field. intros Hd H.
  destruct (js_get contactData k) as [v|e]; simpl in *; [|congruence].
  destruct (strict_eq v VUndefined) eqn:Eu; [|apply H].
  apply strict_eq_undefined in Eu. congruence.
Qed.

(** The step aimed at the input, once the steps before it have run. *)
Ltac this_step :=
  first [ apply when_truthy_reaches | apply when_defined_reaches ];
  [ assumption
  | intro;
    unfold fillFirstName, fillLastName, fillEmail, fillSubject, fillMessage,
      fillPhone, selectInquiryType, uploadAttachment,
      checkPrivacyPolicy, checkNewsletter, set_checkbox;
    first [ apply fill_input_reaches | apply probe_reaches ] ].

Ltac walk_to_step :=
  lazymatch goal with
  | H : fst (run ?E (pbind ?p ?f) ?w) = Returns _ |- reaches ?E _ (pbind ?p ?f) ?w =>
      first
        [ apply reaches_bind_now; solve [this_step]
        | let a := fresh "a" in
          let w' := fresh "w" in
          let Hrun := fresh "Hrun" in
          let Hrest := fresh "Hrest" in
          destruct (bind_returned E p f w _ H) as (a & w' & Hrun & Hrest);
          apply (reaches_bind_later E _ p f w w' a Hrun);
          clear H; cbv beta in Hrest |- *; walk_to_step ]
  | |- _ => solve [this_step]
  end.

(** C9.  [fillContactForm] makes no engine call on the input of a field
    whose value in the record is falsy (absent, empty string, 0, [null]):
    the helper of that field is not invoked and the input is left as it
    was.  The two checkboxes are left alone only when their field is
    [undefined].  In a run that returns, the input of every truthy field
    and the checkbox of every field that is not [undefined] are
    called on. *)
Theorem fillContactForm_acts_on_given_fields (E : engine) (w : World E)
    (contactData : value) :
  (forall k input, In (k, input) filled_fields ->
     truthy (field contactData k) = false ->
     avoids input (fillContactForm contactData))
  /\ (forall k box, In (k, box) checkbox_fields ->
        field contactData k = VUndefined ->
        avoids box (fillContactForm contactData))
  /\ (forall k input, In (k, input) filled_fields ->
        truthy (field contactData k) = true ->
        fst (run E (fillContactForm contactData) w) = Returns tt ->
        reaches E input (fillContactForm contactData) w)
  /\ (forall k box, In (k, box) checkbox_fields ->
        field contactData k <> VUndefined ->
        fst (run E (fillContactForm contactData) w) = Returns tt ->
        reaches E box (fillContactForm contactData) w).
Proof.
  repeat split.
  - intros k input Hin Hfalsy. simpl in Hin.
    repeat (destruct Hin as [Hin|Hin]; [injection Hin as <- <-; other_steps|]).
    contradiction.
  - intros k box Hin Hundef. simpl in Hin.
    repeat (destruct Hin as [Hin|Hin]; [injection Hin as <- <-; other_steps|]).
    contradiction.
  - intros k input Hin Htruthy Hrun. simpl in Hin. unfold fillContactForm in *.
    repeat (destruct Hin as [Hin|Hin]; [injection Hin as <- <-; walk_to_step|]).
    contradiction.
  - intros k box Hin Hdef Hrun. simpl in Hin. unfold fillContactForm in *.
    repeat (destruct Hin as [Hin|Hin]; [injection Hin as <- <-; walk_to_step|]).
    contradiction.
Qed.

Lemma fillContactForm_acts_on_given_fields_witness :
  avoids firstNameInput
    (fillContactForm (VObj [("firstName", VStr ""); ("email", VStr "a@example.com")]))
  /\ reaches (Scripted.scripted Scripted.silent_contact) emailInput
       (fillContactForm (VObj [("firstName", VStr ""); ("email", VStr "a@example.com")]))
       0.
Proof.
  destruct (fillContactForm_acts_on_given_fields
              (Scripted.scripted Scripted.silent_contact) 0
              (VObj [("firstName", VStr ""); ("email", VStr "a@example.com")]))
    as (Hfalsy & _ & Htruthy & _).
  split.
  - apply (Hfalsy "firstName"); [now left|reflexivity].
  - apply (Htruthy "email"); [right; right; now left|reflexivity|reflexivity].
Defined.

(** With only [email] set, every call of the fill is on the email
    input. *)
Example fill_email_only :
  calls (Scripted.scripted Scripted.silent_contact)
    (fillContactForm (VObj [("email", VStr "a@example.com")])) 0
  = [ Wait (waitForSelector emailInput (Some visible) 10000);
      clear [emailInput];
      fill [emailInput] (VStr "a@example.com") ].
Proof. reflexivity. Qed.

End ContactFacts.

(* ===================================================================== *)
(** ** Fixture lookups *)
(* ===================================================================== *)

Module CredentialFacts.

Import UserCredentials.

Lemma own_property_absent k props :
  ~ In k (map fst props) -> own_property k props = None.
Proof.
  induction props as [|[k' v] rest IH]; simpl; intros H; [reflexivity|].
  destruct (String.eqb_spec k' k) as [->|Hne]; [tauto|].
  apply IH. tauto.
Qed.

(** For a name that is neither a key of the record nor inherited, the
    lookups fall back to [validUser] and to [dev]. *)
Lemma unknown_key_falls_back (k : string) :
  is_inherited k = false ->
  (~ In k (keys testUsers) -> getUserCredentials (VStr k) = Returns validUser)
  /\ (~ In k (keys environments) -> getEnvironmentConfig (VStr k) = Returns dev).
Proof.
  intros Hinh. split; intros Hk.
  - unfold getUserCredentials, or_else, testUsers. cbn [default_param js_toString js_get].
    rewrite own_property_absent by exact Hk.
    unfold inherited. rewrite Hinh. reflexivity.
  - unfold getEnvironmentConfig, or_else, environments.
    cbn [default_param js_toString js_get].
    rewrite own_property_absent by exact Hk.
    unfold inherited. rewrite Hinh. reflexivity.
Qed.

(** A key of the record gives its entry. *)
Example known_keys :
  getUserCredentials (VStr "adminUser") = Returns adminUser
  /\ getUserCredentials (VStr "emptyCredentials") = Returns emptyCredentials
  /\ getUserCredentials VUndefined = Returns validUser
  /\ getEnvironmentConfig (VStr "staging") = Returns staging
  /\ getEnvironmentConfig VUndefined = Returns dev.
Proof. repeat split; reflexivity. Qed.

(** C10 at the input on which the code breaks it: [toString] and
    [constructor] are keys of neither record, yet the lookups return the
    built-ins that every object inherits under these names, not
    [validUser] and not [dev]. *)
Theorem inherited_key_is_returned :
  ~ In "toString" (keys testUsers)
  /\ getUserCredentials (VStr "toString") = Returns (VNative "toString")
  /\ getUserCredentials (VStr "toString") <> Returns validUser
  /\ ~ In "constructor" (keys environments)
  /\ getEnvironmentConfig (VStr "constructor") = Returns (VNative "constructor")
  /\ getEnvironmentConfig (VStr "constructor") <> Returns dev.
Proof.
  repeat split; try reflexivity; try discriminate;
    simpl; intuition discriminate.
Qed.

End CredentialFacts.

(* ===================================================================== *)
(** ** The run of the validator, step by step *)
(* ===================================================================== *)

Module StepFacts.

Import ApiHelpers WellFormed Verdicts ValueFacts.

Lemma searchable_truthy o : searchable o = true -> truthy o = true.
Proof. destruct o; simpl; auto; discriminate. Qed.

Lemma js_in_searchable k o :
  searchable o = true -> js_in k o = Returns (has_field o k).
Proof.
  unfold has_field. destruct o; simpl; try discriminate; intros _; try reflexivity.
  now destruct (own_property k props).
Qed.

Lemma js_in_primitive k o : searchable o = false -> js_in k o = Throws TypeError.
Proof. destruct o; simpl; auto; discriminate. Qed.

(** A required-field loop returns on what can be searched and throws a
    [TypeError] on anything else. *)
Lemma require_fields_searchable prefix fields o v :
  searchable o = true -> exists v', require_fields prefix fields o v = Returns v'.
Proof.
  intros Hs. unfold require_fields. revert v.
  induction fields as [|f rest IH]; intros v; cbn [forEach]; [eauto|].
  rewrite (js_in_searchable _ _ Hs). cbn [JS.bind]. apply IH.
Qed.

Lemma require_fields_primitive prefix f rest o v :
  searchable o = false ->
  require_fields prefix (f :: rest) o v = Throws TypeError.
Proof.
  intros Hs. unfold require_fields. cbn [forEach].
  now rewrite (js_in_primitive _ _ Hs).
Qed.

(** *** A run that returned, taken apart *)

Lemma validate_steps Date_parse now response expectedUser r :
  validateLoginResponse Date_parse now response expectedUser = Returns r ->
  exists v1 v2 v3,
    require_fields "Missing required field: " requiredFields (body response)
      (check_status response fresh) = Returns v1
    /\ check_success (body response) v1 = Returns v2
    /\ check_message (body response) v2 = Returns v3
    /\ check_data Date_parse now (body response)
         (default_param expectedUser VNull) v3 = Returns r.
Proof.
  unfold validateLoginResponse. intros H.
  destruct (require_fields _ _ (body response) _) as [v1|e] eqn:E1;
    cbn [JS.bind] in H; [|discriminate].
  destruct (check_success (body response) v1) as [v2|e] eqn:E2;
    cbn [JS.bind] in H; [|discriminate].
  destruct (check_message (body response) v2) as [v3|e] eqn:E3;
    cbn [JS.bind] in H; [|discriminate].
  exists v1, v2, v3. repeat split; assumption.
Qed.

Lemma check_data_steps Date_parse now body expectedUser v r :
  truthy body = true ->
  check_data Date_parse now body expectedUser v = Returns r ->
  (truthy (field body "data") = false /\ r = v)
  \/ (truthy (field body "data") = true /\
      exists v4 v5 v6,
        require_fields "Missing required data field: " dataRequiredFields
          (field body "data") v = Returns v4
        /\ check_user (field body "data") expectedUser v4 = Returns v5
        /\ check_token (field body "data") v5 = Returns v6
        /\ check_expiry Date_parse now (field body "data") v6 = Returns r).
Proof.
  intros Hb. unfold check_data. rewrite (js_get_field _ _ Hb). cbn [JS.bind].
  destruct (truthy (field body "data")); intros H.
  - right. split; [reflexivity|].
    destruct (require_fields _ _ (field body "data") v) as [v4|e] eqn:E4;
      cbn [JS.bind] in H; [|discriminate].
    destruct (check_user (field body "data") expectedUser v4) as [v5|e] eqn:E5;
      cbn [JS.bind] in H; [|discriminate].
    destruct (check_token (field body "data") v5) as [v6|e] eqn:E6;
      cbn [JS.bind] in H; [|discriminate].
    exists v4, v5, v6. repeat split; assumption.
  - left. split; [reflexivity|]. now injection H as <-.
Qed.

(** The three type checks of the user, as one update of the state. *)
Lemma check_user_steps data expectedUser v r :
  truthy data = true ->
  check_user data expectedUser v = Returns r ->
  (truthy (field data "user") = false /\ r = v)
  \/ (truthy (field data "user") = true /\
      exists v1 v2,
        require_fields "Missing required user field: " userRequiredFields
          (field data "user") v = Returns v1
        /\ same_verdict
             (if truthy (field (field data "user") "email")
                 && negb (js_typeof (field (field data "user") "email") =? "string")%string
              then push_error msg_user_email
                     (if truthy (field (field data "user") "id")
                         && negb (js_typeof (field (field data "user") "id") =? "number")%string
                      then push_error msg_user_id v1 else v1)
              else
                (if truthy (field (field data "user") "id")
                    && negb (js_typeof (field (field data "user") "id") =? "number")%string
                 then push_error msg_user_id v1 else v1))
             v2
        /\ (warnings v2 = warnings v1
            \/ warnings v2 = (warnings v1 ++ [msg_is_active])%list)
        /\ check_expected (field data "user") expectedUser v2 = Returns r).
Proof.
  intros Hd. unfold check_user. rewrite (js_get_field _ _ Hd). cbn [JS.bind].
  destruct (truthy (field data "user")) eqn:Hu; intros H.
  - right. split; [reflexivity|].
    destruct (require_fields _ _ (field data "user") v) as [v1|e] eqn:E1;
      cbn [JS.bind] in H; [|discriminate].
    rewrite !(js_get_field _ _ Hu) in H. cbn [JS.bind] in H.
    exists v1. eexists. split; [reflexivity|].
    split; [|split; [|exact H]].
    + destruct (truthy (field (field data "user") "is_active") && _);
        split; reflexivity.
    + destruct (truthy (field (field data "user") "is_active") && _);
        [right|left];
        repeat match goal with
               | |- context [if ?c then _ else _] => destruct c
               end; reflexivity.
  - left. split; [reflexivity|]. now injection H as <-.
Qed.

(** *** Errors only grow *)

Lemma grows_refl v : grows v v.
Proof. split; [exists []; now rewrite app_nil_r|auto]. Qed.

Lemma grows_trans a b c : grows a b -> grows b c -> grows a c.
Proof.
  intros [[x Hx] Hv] [[y Hy] Hv']. split; [|auto].
  exists (x ++ y)%list. now rewrite Hy, Hx, app_assoc.
Qed.

Lemma grows_push_error msg v : grows v (push_error msg v).
Proof. split; [now exists [msg]|auto]. Qed.

Lemma grows_invalidate msg v : grows v (push_error msg (set_invalid v)).
Proof. split; [now exists [msg]|auto]. Qed.

Lemma grows_push_warning msg v : grows v (push_warning msg v).
Proof. split; [exists []; simpl; now rewrite app_nil_r|auto]. Qed.

Lemma grows_same_verdict a b c : grows a b -> same_verdict b c -> grows a c.
Proof.
  intros [[x Hx] Hv] [Hi He]. split; [exists x; congruence|].
  intros H. rewrite <- Hi. auto.
Qed.

Create HintDb grows.

#[local] Hint Resolve grows_refl grows_push_error grows_invalidate
  grows_push_warning : grows.

Ltac grow_steps :=
  repeat match goal with
         | H : JS.bind ?c _ = Returns _ |- _ =>
             let E := fresh "E" in
             destruct c eqn:E; cbn [JS.bind] in H; [|discriminate H]
         | H : Returns _ = Returns _ |- _ => injection H as <-
         | H : (if ?c then _ else _) = Returns _ |- _ => destruct c
         | |- grows _ (if ?c then _ else _) => destruct c
         | |- grows _ (match ?x with Some _ => _ | None => _ end) => destruct x
         | |- grows ?v (push_warning _ ?x) =>
             apply grows_trans with x; [|apply grows_push_warning]
         | |- grows ?v (push_error _ (if ?c then _ else _)) => destruct c
         | |- grows ?v (push_error ?m (push_error ?n ?v)) =>
             apply grows_trans with (push_error n v)
         end;
  auto with grows.

Lemma require_fields_grows prefix fields o v v' :
  require_fields prefix fields o v = Returns v' -> grows v v'.
Proof.
  unfold require_fields. revert v.
  induction fields as [|f rest IH]; cbn [forEach]; intros v H.
  - injection H as <-. apply grows_refl.
  - destruct (js_in f o) as [b|e]; cbn [JS.bind] in H; [|discriminate].
    apply IH in H. eapply grows_trans; [|exact H].
    destruct b; simpl; auto with grows.
Qed.

Lemma check_status_grows response v : grows v (check_status response v).
Proof. unfold check_status. grow_steps. Qed.

Lemma check_success_grows body v v' :
  check_success body v = Returns v' -> grows v v'.
Proof. unfold check_success. intros H. grow_steps. Qed.

Lemma check_message_grows body v v' :
  check_message body v = Returns v' -> grows v v'.
Proof. unfold check_message. intros H. grow_steps. Qed.

Lemma check_expected_grows user expectedUser v v' :
  check_expected user expectedUser v = Returns v' -> grows v v'.
Proof. unfold check_expected. intros H. grow_steps. Qed.

Lemma check_token_grows data v v' :
  check_token data v = Returns v' -> grows v v'.
Proof. unfold check_token. intros H. grow_steps. Qed.

Lemma check_expiry_grows Date_parse now data v v' :
  check_expiry Date_parse now data v = Returns v' -> grows v v'.
Proof. unfold check_expiry. intros H. grow_steps. Qed.

Lemma check_user_grows data expectedUser v v' :
  truthy data = true ->
  check_user data expectedUser v = Returns v' -> grows v v'.
Proof.
  intros Hd H.
  destruct (check_user_steps _ _ _ _ Hd H)
    as [[_ ->]|(_ & v1 & v2 & H1 & Hsame & _ & H2)]; [apply grows_refl|].
  apply require_fields_grows in H1. apply check_expected_grows in H2.
  eapply grows_trans; [|exact H2].
  eapply grows_same_verdict; [|exact Hsame].
  eapply grows_trans; [exact H1|]. grow_steps.
Qed.

Lemma check_data_grows Date_parse now body expectedUser v v' :
  truthy body = true ->
  check_data Date_parse now body expectedUser v = Returns v' -> grows v v'.
Proof.
  intros Hb H.
  destruct (check_data_steps _ _ _ _ _ _ Hb H)
    as [[_ ->]|(Hd & v4 & v5 & v6 & H4 & H5 & H6 & H7)]; [apply grows_refl|].
  apply require_fields_grows in H4. apply check_user_grows in H5; [|assumption].
  apply check_token_grows in H6. apply check_expiry_grows in H7.
  eauto using grows_trans.
Qed.

(** A run that returned searched its body. *)
Lemma returned_body_searchable prefix f rest o v v' :
  require_fields prefix (f :: rest) o v = Returns v' -> searchable o = true.
Proof.
  intros H. destruct (searchable o) eqn:Hs; [reflexivity|].
  now rewrite require_fields_primitive in H.
Qed.

End StepFacts.

(* ===================================================================== *)
(** ** When the validator throws, and what it always reports *)
(* ===================================================================== *)

Module ReportFacts.

Import ApiHelpers WellFormed Verdicts ValueFacts StepFacts Samples.

Lemma check_success_returns body v :
  truthy body = true -> exists v', check_success body v = Returns v'.
Proof.
  intros Hb. unfold check_success. rewrite (js_get_field _ _ Hb). cbn [JS.bind].
  eauto.
Qed.

Lemma check_message_returns body v :
  truthy body = true -> exists v', check_message body v = Returns v'.
Proof.
  intros Hb. unfold check_message. rewrite (js_get_field _ _ Hb). cbn [JS.bind].
  eauto.
Qed.

Lemma check_token_returns data v :
  truthy data = true -> exists v', check_token data v = Returns v'.
Proof.
  intros Hd. unfold check_token. rewrite (js_get_field _ _ Hd). cbn [JS.bind].
  eauto.
Qed.

Lemma check_expiry_returns Date_parse now data v :
  truthy data = true -> exists v', check_expiry Date_parse now data v = Returns v'.
Proof.
  intros Hd. unfold check_expiry. rewrite (js_get_field _ _ Hd). cbn [JS.bind].
  eauto.
Qed.

Lemma check_expected_returns user expectedUser v :
  truthy user = true -> exists v', check_expected user expectedUser v = Returns v'.
Proof.
  intros Hu. unfold check_expected.
  destruct (truthy expectedUser) eqn:He; [|eauto].
  rewrite !(js_get_field _ _ He), !(js_get_field _ _ Hu). cbn [JS.bind]. eauto.
Qed.

Lemma check_user_outcome data expectedUser v :
  truthy data = true ->
  (negb (truthy (field data "user")) || searchable (field data "user") = true ->
   exists v', check_user data expectedUser v = Returns v')
  /\ (negb (truthy (field data "user")) || searchable (field data "user") = false ->
      check_user data expectedUser v = Throws TypeError).
Proof.
  intros Hd. unfold check_user. rewrite (js_get_field _ _ Hd). cbn [JS.bind].
  destruct (truthy (field data "user")) eqn:Hu; simpl negb; simpl orb.
  - split; intros Hs.
    + destruct (require_fields_searchable "Missing required user field: "
                  userRequiredFields _ v Hs) as [v1 ->].
      cbn [JS.bind]. rewrite !(js_get_field _ _ Hu). cbn [JS.bind].
      now apply check_expected_returns.
    + unfold userRequiredFields. now rewrite require_fields_primitive.
  - split; [eauto|discriminate].
Qed.

Lemma check_data_outcome Date_parse now body expectedUser v :
  truthy body = true ->
  let data := field body "data" in
  let shape :=
    negb (truthy data)
    || (searchable data
        && (negb (truthy (field data "user")) || searchable (field data "user"))) in
  (shape = true -> exists v', check_data Date_parse now body expectedUser v = Returns v')
  /\ (shape = false -> check_data Date_parse now body expectedUser v = Throws TypeError).
Proof.
  intros Hb data shape. subst shape. unfold check_data.
  rewrite (js_get_field _ _ Hb). cbn [JS.bind]. fold data.
  destruct (truthy data) eqn:Hd; simpl negb; simpl orb; [|split; [eauto|discriminate]].
  destruct (searchable data) eqn:Hs; simpl andb.
  - destruct (require_fields_searchable "Missing required data field: "
                dataRequiredFields _ v Hs) as [v4 ->]. cbn [JS.bind].
    destruct (check_user_outcome data expectedUser v4 Hd) as [Hyes Hno].
    split; intros Hshape.
    + destruct (Hyes Hshape) as [v5 ->]. cbn [JS.bind].
      destruct (check_token_returns data v5 Hd) as [v6 ->]. cbn [JS.bind].
      now apply check_expiry_returns.
    + now rewrite (Hno Hshape).
  - split; [discriminate|intros _].
    unfold dataRequiredFields. now rewrite require_fields_primitive.
Qed.

(** On a response whose body, truthy [data] and truthy [data.user] can
    all be searched with [in], and whose values that the validator may
    convert to a string or a date are printable, the validator returns a
    result; on every response where one of the three cannot be searched
    (no body, a string for [data], a number for the user) it throws a
    [TypeError] and reports nothing. *)
Theorem validator_returns_on_searchable (Date_parse : string -> option Z) (now : Z)
    (response : Response) (expectedUser : value) :
  (searchable_response response = true ->
   forallb printable (converted response expectedUser) = true ->
   exists r, validateLoginResponse Date_parse now response expectedUser = Returns r)
  /\ (searchable_response response = false ->
      validateLoginResponse Date_parse now response expectedUser = Throws TypeError).
Proof.
  unfold searchable_response, validateLoginResponse.
  destruct (searchable (body response)) eqn:Hs; simpl andb.
  - pose proof (searchable_truthy _ Hs) as Hb.
    destruct (require_fields_searchable "Missing required field: " requiredFields
                _ (check_status response fresh) Hs) as [v1 ->]. cbn [JS.bind].
    destruct (check_success_returns _ v1 Hb) as [v2 ->]. cbn [JS.bind].
    destruct (check_message_returns _ v2 Hb) as [v3 ->]. cbn [JS.bind].
    destruct (check_data_outcome Date_parse now _ (default_param expectedUser VNull)
                v3 Hb) as [Hyes Hno].
    split; [intros Hshape _; now apply Hyes|exact Hno].
  - split; [discriminate|intros _].
    unfold requiredFields. now rewrite require_fields_primitive.
Qed.

Lemma validator_returns_on_searchable_witness :
  (exists r, validateLoginResponse IsoDate.parse clock
               (login_response admin year_2999) expected_admin = Returns r)
  /\ validateLoginResponse IsoDate.parse clock
       {| status := VNum 500; body := VUndefined |} VUndefined = Throws TypeError
  /\ validateLoginResponse IsoDate.parse clock
       {| status := VNum 200;
          body := VObj [("success", VBool true); ("data", VStr "none")] |}
       VUndefined = Throws TypeError.
Proof.
  split; [|split].
  - apply (proj1 (validator_returns_on_searchable IsoDate.parse clock
                    (login_response admin year_2999) expected_admin)).
    + reflexivity.
    + reflexivity.
  - apply (proj2 (validator_returns_on_searchable IsoDate.parse clock
                    {| status := VNum 500; body := VUndefined |} VUndefined)).
    reflexivity.
  - apply (proj2 (validator_returns_on_searchable IsoDate.parse clock
                    {| status := VNum 200;
                       body := VObj [("success", VBool true); ("data", VStr "none")] |}
                    VUndefined)).
    reflexivity.
Defined.

(** *** Reports that stay *)

Lemma reported_grows msg v v' : reported msg v -> grows v v' -> reported msg v'.
Proof.
  intros [Hin Hv] [[added Ha] Hkeep]. split; [|auto].
  rewrite Ha. apply in_or_app. now left.
Qed.

Lemma reported_now msg v : reported msg (push_error msg (set_invalid v)).
Proof. split; [|reflexivity]. simpl. apply in_or_app. right. now left. Qed.

Lemma require_fields_reports prefix fields o v v' k :
  require_fields prefix fields o v = Returns v' ->
  In k fields -> has_field o k = false ->
  reported (prefix ++ k) v'.
Proof.
  unfold require_fields. revert v.
  induction fields as [|f rest IH]; cbn [forEach]; intros v H Hin Hk; [destruct Hin|].
  destruct (js_in f o) as [b|e] eqn:Ef; cbn [JS.bind] in H; [|discriminate].
  destruct Hin as [->|Hin]; [|now apply (IH _ H)].
  unfold has_field in Hk. rewrite Ef in Hk. subst b. simpl in H.
  eapply reported_grows; [apply reported_now|].
  apply (require_fields_grows prefix rest o). exact H.
Qed.

(** In a result that was returned, every required field that is absent
    is reported, at each of the three levels: the error naming the field
    is among the errors and the result is invalid. *)
Theorem missing_fields_are_reported (Date_parse : string -> option Z) (now : Z)
    (response : Response) (expectedUser : value) (r : Validation) :
  validateLoginResponse Date_parse now response expectedUser = Returns r ->
  let data := field (body response) "data" in
  let user := field data "user" in
  (forall k, In k requiredFields -> has_field (body response) k = false ->
     reported ("Missing required field: " ++ k) r)
  /\ (forall k, In k dataRequiredFields -> truthy data = true ->
        has_field data k = false ->
        reported ("Missing required data field: " ++ k) r)
  /\ (forall k, In k userRequiredFields -> truthy data = true ->
        truthy user = true -> has_field user k = false ->
        reported ("Missing required user field: " ++ k) r).
Proof.
  intros H data user.
  destruct (validate_steps _ _ _ _ _ H) as (v1 & v2 & v3 & H1 & H2 & H3 & H4).
  pose proof (searchable_truthy _ (returned_body_searchable _ _ _ _ _ _ H1)) as Hb.
  pose proof (check_success_grows _ _ _ H2) as G2.
  pose proof (check_message_grows _ _ _ H3) as G3.
  pose proof (check_data_grows _ _ _ _ _ _ Hb H4) as G4.
  split; [|split].
  - intros k Hin Hk.
    pose proof (require_fields_reports _ _ _ _ _ k H1 Hin Hk) as R.
    eauto using reported_grows.
  - intros k Hin Hd Hk.
    destruct (check_data_steps _ _ _ _ _ _ Hb H4)
      as [[Hf _]|(_ & v4 & v5 & v6 & H5 & H6 & H7 & H8)];
      [fold data in Hf; congruence|].
    pose proof (require_fields_reports _ _ _ _ _ k H5 Hin Hk) as R.
    apply check_user_grows in H6; [|assumption].
    apply check_token_grows in H7. apply check_expiry_grows in H8.
    eauto using reported_grows.
  - intros k Hin Hd Hu Hk.
    destruct (check_data_steps _ _ _ _ _ _ Hb H4)
      as [[Hf _]|(_ & v4 & v5 & v6 & H5 & H6 & H7 & H8)];
      [fold data in Hf; congruence|].
    apply check_token_grows in H7. apply check_expiry_grows in H8.
    destruct (check_user_steps _ _ _ _ Hd H6)
      as [[Hf _]|(_ & u1 & u2 & U1 & Usame & _ & U2)];
      [fold data user in Hf; congruence|].
    pose proof (require_fields_reports _ _ _ _ _ k U1 Hin Hk) as R.
    apply check_expected_grows in U2.
    assert (G : grows u1 u2).
    { eapply grows_same_verdict; [|exact Usame].
      repeat match goal with
             | |- context [if ?c then _ else _] => destruct c
             end;
        first [ apply grows_refl
              | apply grows_push_error
              | eapply grows_trans; apply grows_push_error ]. }
    eauto using reported_grows.
Qed.

Lemma missing_fields_are_reported_witness :
  reported "Missing required field: message"
    {| isValid := false;
       errors := ["Missing required field: message";
                  "Message field should be a non-empty string"];
       warnings := [] |}.
Proof.
  refine (proj1 (missing_fields_are_reported IsoDate.parse clock
                   response_without_message expected_admin _ _)
            "message" _ _);
    [vm_compute; reflexivity | right; now left | reflexivity].
Defined.

(** In a result that was returned, a status other than 200 is reported
    by the first error, and a [success] other than [true] and a [message]
    that is not a non-blank string are reported too: each of the three
    makes the result invalid. *)
Theorem envelope_failures_are_reported (Date_parse : string -> option Z) (now : Z)
    (response : Response) (expectedUser : value) (r : Validation) :
  validateLoginResponse Date_parse now response expectedUser = Returns r ->
  (status_ok response = false ->
     isValid r = false
     /\ exists rest,
          errors r = ("Expected status 200, got " ++ js_toString (status response)) :: rest)
  /\ (success_ok (body response) = false ->
        reported ("Expected success to be true, got "
                  ++ js_toString (field (body response) "success")) r)
  /\ (message_ok (body response) = false ->
        reported "Message field should be a non-empty string" r).
Proof.
  intros H.
  destruct (validate_steps _ _ _ _ _ H) as (v1 & v2 & v3 & H1 & H2 & H3 & H4).
  pose proof (searchable_truthy _ (returned_body_searchable _ _ _ _ _ _ H1)) as Hb.
  pose proof (require_fields_grows _ _ _ _ _ H1) as G1.
  pose proof (check_success_grows _ _ _ H2) as G2.
  pose proof (check_message_grows _ _ _ H3) as G3.
  pose proof (check_data_grows _ _ _ _ _ _ Hb H4) as G4.
  split; [|split].
  - intros Hst.
    assert (G : grows (check_status response fresh) r) by eauto using grows_trans.
    unfold status_ok in Hst. unfold check_status in G. rewrite Hst in G.
    cbn [negb] in G.
    destruct G as [[added Ha] Hv]. split; [auto|]. exists added. exact Ha.
  - intros Hs. unfold check_success in H2.
    rewrite (js_get_field _ _ Hb) in H2. cbn [JS.bind] in H2.
    unfold success_ok in Hs. rewrite Hs in H2. simpl in H2. injection H2 as <-.
    eapply reported_grows; [apply reported_now|]. eauto using grows_trans.
  - intros Hm. unfold check_message in H3.
    rewrite (js_get_field _ _ Hb) in H3. cbn [JS.bind] in H3.
    unfold message_ok in Hm.
    assert (Hc : match field (body response) "message" with
                 | VStr s => (trim s =? "")%string
                 | _ => true
                 end = true).
    { destruct (field (body response) "message"); try reflexivity.
      now apply negb_false_iff in Hm. }
    rewrite Hc in H3. injection H3 as <-.
    eapply reported_grows; [apply reported_now|]. exact G4.
Qed.

Lemma envelope_failures_are_reported_witness :
  exists r,
    validateLoginResponse IsoDate.parse clock
      {| status := VNum 500; body := VObj [("message", VStr "  ")] |} VUndefined
    = Returns r
    /\ isValid r = false
    /\ (exists rest, errors r = "Expected status 200, got 500" :: rest)
    /\ reported "Message field should be a non-empty string" r.
Proof.
  eexists. split; [vm_compute; reflexivity|].
  destruct (envelope_failures_are_reported IsoDate.parse clock
              {| status := VNum 500; body := VObj [("message", VStr "  ")] |}
              VUndefined _ eq_refl) as (Hst & _ & Hmsg).
  destruct (Hst eq_refl) as [Hv Hfirst].
  split; [exact Hv|]. split; [exact Hfirst|]. apply Hmsg. reflexivity.
Defined.

End ReportFacts.

(* ===================================================================== *)
(** ** The expected name, the token helpers *)
(* ===================================================================== *)

Module HelperFacts.

Import ApiHelpers WellFormed Verdicts TokenHelpers ValueFacts CheckFacts
  FrameFacts StepFacts Samples.

(** *** What does not change the verdict *)

Lemma same_verdict_refl v : same_verdict v v.
Proof. now split. Qed.

Lemma same_verdict_push_error msg v v' :
  same_verdict v v' -> same_verdict (push_error msg v) (push_error msg v').
Proof. intros [H1 H2]. split; simpl; congruence. Qed.

Lemma same_verdict_warning_l msg v v' :
  same_verdict v v' -> same_verdict (push_warning msg v) v'.
Proof. intros [H1 H2]. now split. Qed.

Lemma same_verdict_warning_r msg v v' :
  same_verdict v v' -> same_verdict v (push_warning msg v').
Proof. intros [H1 H2]. now split. Qed.

Lemma same_verdict_if_warning (c c' : bool) msg msg' v v' :
  same_verdict v v' ->
  same_verdict (if c then push_warning msg v else v)
               (if c' then push_warning msg' v' else v').
Proof.
  intros H. destruct c, c';
    auto using same_verdict_warning_l, same_verdict_warning_r.
Qed.

Lemma check_token_same_verdict data a a' b :
  same_verdict a a' -> check_token data a = Returns b ->
  exists b', check_token data a' = Returns b' /\ same_verdict b b'.
Proof.
  unfold check_token. intros Hs H.
  destruct (js_get data "access_token") as [t|e]; cbn [JS.bind] in *; [|discriminate].
  injection H as <-. eexists. split; [reflexivity|].
  now apply same_verdict_if_warning.
Qed.

Lemma check_expiry_same_verdict Date_parse now data a a' b :
  same_verdict a a' -> check_expiry Date_parse now data a = Returns b ->
  exists b', check_expiry Date_parse now data a' = Returns b' /\ same_verdict b b'.
Proof.
  unfold check_expiry. intros Hs H.
  destruct (js_get data "access_token_expire_at") as [t|e];
    cbn [JS.bind] in *; [|discriminate].
  injection H as <-. eexists. split; [reflexivity|].
  destruct (truthy t); [|assumption].
  destruct (Date_getTime Date_parse t) as [d|].
  - now apply same_verdict_if_warning.
  - now apply same_verdict_push_error.
Qed.

(** The expected name is read by one statement, which pushes a warning
    or nothing. *)
Lemma check_expected_name user props name v a :
  check_expected user (VObj props) v = Returns a ->
  exists a', check_expected user (VObj (set_property "name" name props)) v = Returns a'
             /\ same_verdict a a'.
Proof.
  unfold check_expected. cbn [truthy].
  change (VObj (set_property "name" name props))
    with (with_field (VObj props) "name" name).
  rewrite js_get_with_other by discriminate.
  rewrite js_get_with_same, !js_get_obj. cbn [JS.bind].
  destruct (js_get user "email") as [email|e]; cbn [JS.bind]; [|discriminate].
  destruct (js_get user "name") as [user_name|e]; cbn [JS.bind]; [|discriminate].
  intros H. injection H as <-. eexists. split; [reflexivity|].
  apply same_verdict_if_warning. apply same_verdict_refl.
Qed.

(** Whatever name the expected user carries, the verdict is the same:
    when the validator returns a result for an expected user and returns
    one for the same expected user with [name] replaced by any value, the
    two results have the same [isValid] and the same errors.  The name can
    only add or remove a warning. *)
Theorem expected_name_only_warns (Date_parse : string -> option Z) (now : Z)
    (response : Response) (props : list (string * value)) (name : value)
    (r r' : Validation) :
  validateLoginResponse Date_parse now response (VObj props) = Returns r ->
  validateLoginResponse Date_parse now response
    (VObj (set_property "name" name props)) = Returns r' ->
  isValid r' = isValid r /\ errors r' = errors r.
Proof.
  intros H Hret.
  assert (Hrun : exists r0,
             validateLoginResponse Date_parse now response
               (VObj (set_property "name" name props)) = Returns r0
             /\ isValid r0 = isValid r
             /\ errors r0 = errors r).
  { clear Hret r'.
    destruct (validate_steps _ _ _ _ _ H) as (v1 & v2 & v3 & H1 & H2 & H3 & H4).
    pose proof (searchable_truthy _ (returned_body_searchable _ _ _ _ _ _ H1)) as Hb.
    unfold validateLoginResponse. rewrite H1. cbn [JS.bind].
    rewrite H2. cbn [JS.bind]. rewrite H3. cbn [JS.bind].
    cbn [default_param] in *.
    unfold check_data in *. rewrite (js_get_field _ _ Hb) in *. cbn [JS.bind] in *.
    destruct (truthy (field (body response) "data")) eqn:Hd.
    2:{ exists r. now rewrite H4. }
    destruct (require_fields _ _ (field (body response) "data") v3) as [v4|e];
      cbn [JS.bind] in *; [|discriminate].
    assert (Huser : forall v5,
               check_user (field (body response) "data") (VObj props) v4 = Returns v5 ->
               exists v5',
                 check_user (field (body response) "data")
                   (VObj (set_property "name" name props)) v4 = Returns v5'
                 /\ same_verdict v5 v5').
    { intros v5. unfold check_user. rewrite (js_get_field _ _ Hd). cbn [JS.bind].
      destruct (truthy (field (field (body response) "data") "user")).
      - destruct (require_fields _ _ _ v4) as [u1|e]; cbn [JS.bind]; [|discriminate].
        destruct (js_get _ "id") as [id|e]; cbn [JS.bind]; [|discriminate].
        destruct (js_get _ "email") as [email|e]; cbn [JS.bind]; [|discriminate].
        destruct (js_get _ "is_active") as [act|e]; cbn [JS.bind]; [|discriminate].
        apply check_expected_name.
      - intros E. injection E as <-. eexists. split; [reflexivity|].
        apply same_verdict_refl. }
    destruct (check_user (field (body response) "data") (VObj props) v4)
      as [v5|e] eqn:E5; cbn [JS.bind] in H4; [|discriminate].
    destruct (Huser v5 eq_refl) as (v5' & -> & S5). cbn [JS.bind].
    destruct (check_token (field (body response) "data") v5)
      as [v6|e] eqn:E6; cbn [JS.bind] in H4; [|discriminate].
    destruct (check_token_same_verdict _ _ _ _ S5 E6) as (v6' & -> & S6).
    cbn [JS.bind].
    destruct (check_expiry_same_verdict _ _ _ _ _ _ S6 H4) as (r' & -> & [Sv Se]).
    exists r'. auto. }
  destruct Hrun as (r0 & Hr0 & Hsame).
  rewrite Hr0 in Hret. injection Hret as <-. exact Hsame.
Qed.

Lemma expected_name_only_warns_witness :
  isValid {| isValid := true; errors := [];
             warnings := ["Expected name Root, got Admin"] |} = true
  /\ errors {| isValid := true; errors := [];
               warnings := ["Expected name Root, got Admin"] |} = [].
Proof.
  apply (expected_name_only_warns IsoDate.parse clock
           (login_response admin year_2999)
           [("email", VStr "admin@admin.com")] (VStr "Root")
           {| isValid := true; errors := []; warnings := [] |}
           {| isValid := true; errors := [];
              warnings := ["Expected name Root, got Admin"] |}).
  - vm_compute. reflexivity.
  - vm_compute. reflexivity.
Defined.

(** *** The token helpers *)



End HelperFacts.

(* ===================================================================== *)
(** ** The validator and [isTokenValid] on the same response *)
(* ===================================================================== *)

Module TokenFacts.

Import ApiHelpers WellFormed Verdicts TokenHelpers ValueFacts StepFacts Samples.

Lemma quiet_fresh : no_expiry_message fresh.
Proof. split; intros []. Qed.

Lemma quiet_push_error msg v :
  msg <> msg_date -> no_expiry_message v -> no_expiry_message (push_error msg v).
Proof.
  intros Hne [Hw He]. split; [exact Hw|]. simpl. intros Hin.
  apply in_app_or in Hin as [Hin|[Hin|[]]]; [now apply He|congruence].
Qed.

Lemma quiet_set_invalid v : no_expiry_message v -> no_expiry_message (set_invalid v).
Proof. intros [Hw He]. now split. Qed.

Lemma quiet_push_warning msg v :
  msg <> msg_expired -> no_expiry_message v -> no_expiry_message (push_warning msg v).
Proof.
  intros Hne [Hw He]. split; [|exact He]. simpl. intros Hin.
  apply in_app_or in Hin as [Hin|[Hin|[]]]; [now apply Hw|congruence].
Qed.

(** None of the other messages is one of the two about the expiry. *)
Ltac other_message :=
  unfold msg_date, msg_expired, msg_message, msg_user_id, msg_user_email,
    msg_is_active, msg_token;
  repeat intro;
  match goal with
  | H : _ = _ |- False => simpl in H; discriminate H
  end.

Ltac quiet_steps :=
  repeat match goal with
         | H : JS.bind ?c _ = Returns _ |- _ =>
             let E := fresh "E" in
             destruct c eqn:E; cbn [JS.bind] in H; [|discriminate H]
         | H : Returns _ = Returns _ |- _ => injection H as <-
         | H : (if ?c then _ else _) = Returns _ |- _ => destruct c
         | |- no_expiry_message (if ?c then _ else _) => destruct c
         | |- no_expiry_message (push_error _ _) =>
             apply quiet_push_error; [other_message|]
         | |- no_expiry_message (push_warning _ _) =>
             apply quiet_push_warning; [other_message|]
         | |- no_expiry_message (set_invalid _) => apply quiet_set_invalid
         end;
  auto using quiet_fresh.

Lemma require_fields_quiet prefix fields o v v' :
  (forall f, prefix ++ f <> msg_date) ->
  no_expiry_message v ->
  require_fields prefix fields o v = Returns v' -> no_expiry_message v'.
Proof.
  intros Hp. unfold require_fields. revert v.
  induction fields as [|f rest IH]; cbn [forEach]; intros v Hv H.
  - now injection H as <-.
  - destruct (js_in f o) as [b|e]; cbn [JS.bind] in H; [|discriminate].
    apply IH in H; [assumption|]. destruct b; simpl; [assumption|].
    apply quiet_push_error; [apply Hp|now apply quiet_set_invalid].
Qed.

Lemma check_user_quiet data expectedUser v v' :
  no_expiry_message v ->
  check_user data expectedUser v = Returns v' -> no_expiry_message v'.
Proof.
  unfold check_user, check_expected. intros Hv H.
  destruct (js_get data "user") as [user|e]; cbn [JS.bind] in H; [|discriminate].
  destruct (truthy user); [|now injection H as <-].
  destruct (require_fields _ _ user v) as [v1|e] eqn:E1;
    cbn [JS.bind] in H; [|discriminate].
  apply require_fields_quiet in E1; [|other_message|assumption].
  quiet_steps.
Qed.

(** Up to the check of the expiry no message about the expiry is
    pushed. *)
Lemma quiet_before_expiry Date_parse now response expectedUser r :
  validateLoginResponse Date_parse now response expectedUser = Returns r ->
  truthy (body response) = true
  /\ ((truthy (field (body response) "data") = false /\ no_expiry_message r)
      \/ (truthy (field (body response) "data") = true /\
          exists v, no_expiry_message v
                    /\ check_expiry Date_parse now (field (body response) "data") v
                       = Returns r)).
Proof.
  intros H.
  destruct (validate_steps _ _ _ _ _ H) as (v1 & v2 & v3 & H1 & H2 & H3 & H4).
  pose proof (searchable_truthy _ (returned_body_searchable _ _ _ _ _ _ H1)) as Hb.
  split; [assumption|].
  assert (Q3 : no_expiry_message v3).
  { apply require_fields_quiet in H1; [|other_message|].
    2:{ unfold check_status. quiet_steps. }
    unfold check_success in H2. unfold check_message in H3.
    clear H H4. quiet_steps. }
  destruct (check_data_steps _ _ _ _ _ _ Hb H4)
    as [[Hf ->]|(Hd & v4 & v5 & v6 & H5 & H6 & H7 & H8)]; [now left|].
  right. split; [assumption|]. exists v6. split; [|assumption].
  apply require_fields_quiet in H5; [|other_message|assumption].
  apply check_user_quiet in H6; [|assumption].
  unfold check_token in H7. clear H H4 H8. quiet_steps.
Qed.

(** When the validator and [isTokenValid] read the same current time
    [now]: on every response for which the validator returns,
    [isTokenValid] returns too, and the two agree.  When it says [true]
    the result holds neither the expired-token warning nor the
    date-format error; when it says [false] and
    [body.data.access_token_expire_at] is truthy, the result holds one of
    the two.  (A falsy expiry, absent or not, is skipped by both, and
    [isTokenValid] says [false] without any message in the result.) *)
Theorem token_validity_agrees_with_validator (Date_parse : string -> option Z)
    (now : Z) (response : Response) (expectedUser : value) (r : Validation) :
  validateLoginResponse Date_parse now response expectedUser = Returns r ->
  exists valid,
    isTokenValid Date_parse now response = Returns valid
    /\ (valid = true ->
        ~ In "Access token appears to be expired" (warnings r)
        /\ ~ In "Invalid access_token_expire_at date format" (errors r))
    /\ (valid = false ->
        truthy (field (field (body response) "data") "access_token_expire_at") = true ->
        In "Access token appears to be expired" (warnings r)
        \/ In "Invalid access_token_expire_at date format" (errors r)).
Proof.
  intros H.
  destruct (quiet_before_expiry _ _ _ _ _ H) as [Hb Hcases].
  unfold isTokenValid. rewrite Hb, (js_get_field _ _ Hb). cbn [JS.bind].
  destruct Hcases as [[Hd Hq]|(Hd & v & Hq & Hexp)]; rewrite Hd.
  - exists false. split; [reflexivity|]. split; [discriminate|].
    intros _ Hpresent. exfalso.
    destruct (field (body response) "data") as [| |b|n|s|l|p|n];
      try discriminate; simpl in Hd;
      vm_compute in Hpresent; discriminate.
  - rewrite (js_get_field _ _ Hd). cbn [JS.bind].
    unfold check_expiry in Hexp. rewrite (js_get_field _ _ Hd) in Hexp.
    cbn [JS.bind] in Hexp. injection Hexp as <-.
    destruct (truthy (field (field (body response) "data") "access_token_expire_at")).
    + destruct (Date_getTime Date_parse _) as [t|].
      * destruct (Z.ltb_spec now t) as [Hlt|Hge].
        -- apply Z.leb_gt in Hlt. rewrite Hlt.
           exists true. split; [reflexivity|]. split; [intros _; exact Hq|discriminate].
        -- apply Z.leb_le in Hge. rewrite Hge.
           exists false. split; [reflexivity|]. split; [discriminate|].
           intros _ _. left. simpl. apply in_or_app. right. now left.
      * exists false. split; [reflexivity|]. split; [discriminate|].
        intros _ _. right. simpl. apply in_or_app. right. now left.
    + exists false. split; [reflexivity|]. split; [discriminate|]. discriminate.
Qed.

Lemma token_validity_agrees_with_validator_witness :
  exists valid,
    isTokenValid IsoDate.parse clock (login_response admin year_2024) = Returns valid
    /\ (valid = true ->
        ~ In "Access token appears to be expired" [msg_expired]
        /\ ~ In "Invalid access_token_expire_at date format" [])
    /\ (valid = false ->
        truthy (field (field (body (login_response admin year_2024)) "data")
                  "access_token_expire_at") = true ->
        In "Access token appears to be expired" [msg_expired]
        \/ In "Invalid access_token_expire_at date format" []).
Proof.
  apply (token_validity_agrees_with_validator IsoDate.parse clock
           (login_response admin year_2024) expected_admin
           {| isValid := true; errors := []; warnings := [msg_expired] |}).
  vm_compute. reflexivity.
Defined.

End TokenFacts.

(* ===================================================================== *)
(** ** More about the page objects *)
(* ===================================================================== *)

Module FlowFacts.

Import RunFacts WellFormed Calls.

(** *** Kinds of calls that are never made *)

Lemma never_ret {A} kind (a : A) : never kind (Ret a).
Proof. intros E w c []. Qed.

Lemma never_throw {A} kind e : never kind (@Throw A e).
Proof. intros E w c []. Qed.

Lemma never_eval {A} kind (r : completion A) : never kind (eval r).
Proof. destruct r; [apply never_ret|apply never_throw]. Qed.

Lemma never_bind {A B} kind (p : prog A) (f : A -> prog B) :
  never kind p -> (forall a, never kind (f a)) -> never kind (pbind p f).
Proof.
  intros Hp Hf E w c. rewrite calls_bind. intros Hin.
  apply in_app_or in Hin as [Hin|Hin]; [now apply (Hp E w)|].
  destruct (run E p w) as [[a|e] w']; [now apply (Hf a E w')|contradiction].
Qed.

Lemma never_try_catch {A} kind (p : prog A) (h : exn -> prog A) :
  never kind p -> (forall e, never kind (h e)) -> never kind (try_catch p h).
Proof.
  intros Hp Hh E w c. rewrite calls_try_catch. intros Hin.
  apply in_app_or in Hin as [Hin|Hin]; [now apply (Hp E w)|].
  destruct (run E p w) as [[a|e] w']; [contradiction|now apply (Hh e E w')].
Qed.

Lemma never_await kind (c : call) : kind c = false -> never kind (await c).
Proof.
  intros Hc E w c'. unfold await. simpl.
  destruct (perform E c w) as [r w']. intros [<-|Hin]; [assumption|].
  now apply (never_eval kind r E w').
Qed.

Lemma probe_never kind sel :
  kind (Wait (waitForSelector sel (Some visible) 5000)) = false ->
  never kind (BasePage.isElementVisible sel).
Proof.
  intros H. unfold BasePage.isElementVisible.
  apply never_try_catch; [|intro; apply never_ret].
  apply never_bind; [now apply never_await|intro; apply never_ret].
Qed.

Ltac never_calls :=
  repeat first
    [ apply never_ret
    | apply never_throw
    | apply never_eval
    | apply never_await; reflexivity
    | apply probe_never; reflexivity
    | match goal with
      | |- never _ (pbind _ _) => apply never_bind; [|intro]
      | |- never _ (try_catch _ _) => apply never_try_catch; [|intro]
      | |- never _ (if ?b then _ else _) => destruct b
      end ].

(** [checkPrivacyPolicy(check)] and [checkNewsletter(check)] move the box
    one way only: with a truthy argument (or none) they never uncheck,
    with a falsy one they never check; and they never fill, clear or
    click. *)
Theorem checkbox_moves_one_way (box : selector) (check_arg : value) :
  (truthy (default_param check_arg (VBool true)) = true ->
   never is_uncheck (ContactPage.set_checkbox box check_arg))
  /\ (truthy (default_param check_arg (VBool true)) = false ->
      never is_check (ContactPage.set_checkbox box check_arg))
  /\ never is_fill (ContactPage.set_checkbox box check_arg)
  /\ never is_click (ContactPage.set_checkbox box check_arg).
Proof.
  unfold ContactPage.set_checkbox. cbv zeta.
  repeat split; try intros ->; cbn [negb andb]; never_calls.
Qed.

Lemma checkbox_moves_one_way_witness :
  never is_uncheck (ContactPage.checkPrivacyPolicy VUndefined)
  /\ never is_check (ContactPage.checkNewsletter (VBool false)).
Proof.
  split.
  - apply (proj1 (checkbox_moves_one_way ContactPage.privacyCheckbox VUndefined)).
    reflexivity.
  - apply (proj1 (proj2 (checkbox_moves_one_way ContactPage.newsletterCheckbox
                           (VBool false)))).
    reflexivity.
Defined.

(** [clearForm] of the contact page and of the login page only clear and
    uncheck: neither makes a call that fills an input, checks a box or
    clicks. *)
Theorem clearForm_only_clears :
  never is_fill ContactPageRest.clearForm
  /\ never is_check ContactPageRest.clearForm
  /\ never is_click ContactPageRest.clearForm
  /\ never is_fill LoginPageRest.clearForm
  /\ never is_check LoginPageRest.clearForm
  /\ never is_click LoginPageRest.clearForm.
Proof.
  unfold ContactPageRest.clearForm, LoginPageRest.clearForm,
    ContactPage.checkPrivacyPolicy, ContactPage.checkNewsletter,
    ContactPage.set_checkbox.
  cbv zeta. cbn [default_param truthy negb andb].
  repeat split; never_calls.
Qed.

(** *** Records with nothing to fill *)

Lemma when_truthy_skipped contactData k helper :
  truthy contactData = true -> truthy (field contactData k) = false ->
  ContactPage.when_truthy contactData k helper = Ret tt.
Proof.
  intros Hd Hk. unfold ContactPage.when_truthy.
  rewrite (ValueFacts.js_get_field _ _ Hd). simpl. now rewrite Hk.
Qed.

Lemma when_defined_skipped contactData k helper :
  truthy contactData = true -> field contactData k = VUndefined ->
  ContactPage.when_defined contactData k helper = Ret tt.
Proof.
  intros Hd Hk. unfold ContactPage.when_defined.
  rewrite (ValueFacts.js_get_field _ _ Hd). simpl. now rewrite Hk.
Qed.

(** On a record in which none of the eight fields is truthy and neither
    checkbox field is defined (the empty record, a record of empty
    strings), [fillContactForm] returns without a single engine call: the
    page is left as it was. *)
Theorem nothing_to_fill_touches_nothing (E : engine) (w : World E)
    (contactData : value) :
  truthy contactData = true ->
  (forall k input, In (k, input) ContactPage.filled_fields ->
                   truthy (field contactData k) = false) ->
  (forall k box, In (k, box) ContactPage.checkbox_fields ->
                 field contactData k = VUndefined) ->
  run E (ContactPage.fillContactForm contactData) w = (Returns tt, w)
  /\ calls E (ContactPage.fillContactForm contactData) w = [].
Proof.
  intros Hd Hfill Hbox. unfold ContactPage.fillContactForm.
  rewrite !when_truthy_skipped, !when_defined_skipped;
    try assumption;
    try (eapply Hbox; simpl; eauto 12; fail);
    try (eapply Hfill; simpl; eauto 12; fail).
  now split.
Qed.

Lemma nothing_to_fill_touches_nothing_witness :
  run (Scripted.scripted Scripted.silent_contact)
    (ContactPage.fillContactForm
       (VObj [("firstName", VStr ""); ("email", VStr ""); ("phone", VNull)])) 0
  = (Returns tt, 0)
  /\ calls (Scripted.scripted Scripted.silent_contact)
       (ContactPage.fillContactForm
          (VObj [("firstName", VStr ""); ("email", VStr ""); ("phone", VNull)])) 0
     = [].
Proof.
  apply (nothing_to_fill_touches_nothing
           (Scripted.scripted Scripted.silent_contact) 0
           (VObj [("firstName", VStr ""); ("email", VStr ""); ("phone", VNull)])).
  - reflexivity.
  - intros k input Hin. simpl in Hin.
    repeat (destruct Hin as [Hin|Hin]; [injection Hin as <- <-; reflexivity|]).
    contradiction.
  - intros k box Hin. simpl in Hin.
    repeat (destruct Hin as [Hin|Hin]; [injection Hin as <- <-; reflexivity|]).
    contradiction.
Defined.

(** Without a record ([null] or [undefined]) [fillContactForm] and
    [submitContactForm] throw a [TypeError] at the first field read,
    before any engine call: nothing is filled and nothing is submitted. *)
Theorem no_record_throws_before_any_call (E : engine) (w : World E)
    (contactData : value) :
  nullish contactData = true ->
  run E (ContactPage.fillContactForm contactData) w = (Throws TypeError, w)
  /\ calls E (ContactPage.fillContactForm contactData) w = []
  /\ run E (ContactPage.submitContactForm contactData) w = (Throws TypeError, w)
  /\ calls E (ContactPage.submitContactForm contactData) w = [].
Proof.
  intros H. destruct contactData; try discriminate H; repeat split.
Qed.

Lemma no_record_throws_before_any_call_witness :
  run (Scripted.scripted Scripted.silent_contact)
    (ContactPage.submitContactForm VUndefined) 0 = (Throws TypeError, 0)
  /\ calls (Scripted.scripted Scripted.silent_contact)
       (ContactPage.submitContactForm VUndefined) 0 = [].
Proof.
  destruct (no_record_throws_before_any_call
              (Scripted.scripted Scripted.silent_contact) 0 VUndefined eq_refl)
    as (_ & _ & Hrun & Hcalls).
  now split.
Defined.

End FlowFacts.

(* ===================================================================== *)
(** ** Failures that are thrown on, probes that are not *)
(* ===================================================================== *)

Module OutcomeFacts.

Import RunFacts Calls.

(** Only the race is swallowed.  When a step before it fails (an input
    that never shows, a click that is refused), [login] and
    [submitContactForm] throw that failure on, in the world where it
    happened, and start none of the raced waits. *)
Theorem failed_actions_are_thrown_on (E : engine) (w w1 : World E) (e : exn) :
  (forall username password rememberMe,
     run E (LoginPage.login_actions username password rememberMe) w = (Throws e, w1) ->
     run E (LoginPage.login username password rememberMe) w = (Throws e, w1)
     /\ calls E (LoginPage.login username password rememberMe) w
        = calls E (LoginPage.login_actions username password rememberMe) w)
  /\ (forall contactData,
        run E (ContactPage.submit_actions contactData) w = (Throws e, w1) ->
        run E (ContactPage.submitContactForm contactData) w = (Throws e, w1)
        /\ calls E (ContactPage.submitContactForm contactData) w
           = calls E (ContactPage.submit_actions contactData) w).
Proof.
  split; intros.
  - unfold LoginPage.login. rewrite run_bind, calls_bind, H.
    split; [reflexivity|apply app_nil_r].
  - unfold ContactPage.submitContactForm. rewrite run_bind, calls_bind, H.
    split; [reflexivity|apply app_nil_r].
Qed.

Lemma failed_actions_are_thrown_on_witness :
  run (Scripted.scripted Scripted.late_banner)
    (LoginPage.login (VStr "user@example.com") (VStr "secret") VUndefined) 0
  = (Throws TimeoutError, 10000).
Proof.
  apply (proj1 (failed_actions_are_thrown_on
                  (Scripted.scripted Scripted.late_banner) 0 10000 TimeoutError)).
  reflexivity.
Defined.

(** [isLoginPageLoaded] and [isContactPageLoaded] never throw: against
    any engine they return a boolean, and [false] when the wait for the
    form is rejected. *)
Theorem page_loaded_checks_return_booleans (E : engine) (w : World E) :
  (exists b, fst (run E LoginPageRest.isLoginPageLoaded w) = Returns b)
  /\ (exists b, fst (run E ContactPageRest.isContactPageLoaded w) = Returns b)
  /\ (rejected E w (waitForSelector LoginPageRest.loginForm (Some visible) 10000) ->
      fst (run E LoginPageRest.isLoginPageLoaded w) = Returns false)
  /\ (rejected E w (waitForSelector ContactPageRest.contactForm (Some visible) 10000) ->
      fst (run E ContactPageRest.isContactPageLoaded w) = Returns false).
Proof.
  unfold LoginPageRest.isLoginPageLoaded, ContactPageRest.isContactPageLoaded.
  repeat split.
  - simpl. destruct (perform E _ w) as [[[]|e] w1]; simpl; [|eauto].
    destruct (perform E _ w1) as [[[]|e] w2]; simpl; eauto.
  - simpl. destruct (perform E _ w) as [[[]|e] w1]; simpl; [|eauto].
    destruct (perform E _ w1) as [[[]|e] w2]; simpl; eauto.
  - intros (e & w1 & H). simpl. unfold BasePage.default_timeout. now rewrite H.
  - intros (e & w1 & H). simpl. unfold BasePage.default_timeout. now rewrite H.
Qed.

Lemma page_loaded_checks_return_booleans_witness :
  fst (run (Scripted.scripted Scripted.late_banner)
         LoginPageRest.isLoginPageLoaded 0) = Returns false.
Proof.
  apply (proj1 (proj2 (proj2 (page_loaded_checks_return_booleans
                                (Scripted.scripted Scripted.late_banner) 0)))).
  exists TimeoutError, 10000. reflexivity.
Defined.

(** The selector table of the login page declares no remember-me
    checkbox and no social login button.  Against an engine that rejects
    a wait for a selector it is not given, [checkRememberMe] therefore
    returns after its probe without touching a box, and [loginWithGoogle]
    and [loginWithFacebook] always throw their not-available error. *)
Theorem undeclared_selectors_are_never_found (E : engine) (w : World E)
    (check_arg : value) :
  rejects_no_selector E ->
  fst (run E (LoginPage.checkRememberMe check_arg) w) = Returns tt
  /\ calls E (LoginPage.checkRememberMe check_arg) w
     = [Wait (waitForSelector NoSelector (Some visible) 5000)]
  /\ fst (run E LoginPageRest.loginWithGoogle w)
     = Throws (Error "Google login button not available")
  /\ fst (run E LoginPageRest.loginWithFacebook w)
     = Throws (Error "Facebook login button not available").
Proof.
  intros Hrej. destruct (Hrej w (Some visible) 5000) as (e & w1 & H).
  unfold LoginPage.checkRememberMe, LoginPageRest.loginWithGoogle,
    LoginPageRest.loginWithFacebook, LoginPage.rememberMeCheckbox,
    LoginPageRest.googleLoginButton, LoginPageRest.facebookLoginButton.
  simpl. rewrite H. simpl. repeat split.
Qed.

Lemma undeclared_selectors_are_never_found_witness :
  fst (run (Scripted.scripted Scripted.silent_login)
         LoginPageRest.loginWithGoogle 0)
  = Throws (Error "Google login button not available").
Proof.
  refine (proj1 (proj2 (proj2 (undeclared_selectors_are_never_found
                                 (Scripted.scripted Scripted.silent_login) 0
                                 VUndefined _)))).
  intros w state timeout. exists TimeoutError, (w + timeout). reflexivity.
Defined.

(** Where [login] swallows, [waitForLoginResult] throws: when the wait
    that settles first in its race is rejected with [e], the method throws
    a new error whose message gives the timeout and then the message of
    that same [e], and when that wait is fulfilled the method returns.
    Either way the page is left as that one wait left it. *)
Theorem waitForLoginResult_throws_on_timeout (runtime_message : exn -> string)
    (E : engine) (w : World E) (timeout : Z) :
  let first_settled :=
    winner E w (waitForSelector LoginPage.successMessage None timeout)
      [ waitForSelector LoginPage.errorMessage None timeout;
        waitForURL "**/dashboard" timeout;
        waitForURL "**/home" timeout ] in
  (forall e w1,
     perform E (Wait first_settled) w = (Throws e, w1) ->
     run E (LoginPageRest.waitForLoginResult runtime_message timeout) w
     = (Throws (Error ("Login result not received within "
                       ++ JS.Z_to_string timeout ++ "ms: "
                       ++ LoginPageRest.message runtime_message e)), w1))
  /\ (forall w1,
        perform E (Wait first_settled) w = (Returns tt, w1) ->
        run E (LoginPageRest.waitForLoginResult runtime_message timeout) w
        = (Returns tt, w1)).
Proof.
  intros first_settled. subst first_settled.
  unfold LoginPageRest.waitForLoginResult.
  rewrite run_try_catch. unfold Promise_race. cbn [run].
  split.
  - intros e w1 Hwin. now rewrite Hwin.
  - intros w1 Hwin. now rewrite Hwin.
Qed.

Lemma waitForLoginResult_throws_on_timeout_witness :
  run (Scripted.scripted Scripted.silent_login)
    (LoginPageRest.waitForLoginResult (fun _ => "Timeout exceeded") 10000) 0
  = (Throws (Error "Login result not received within 10000ms: Timeout exceeded"),
     10000).
Proof.
  apply (proj1 (waitForLoginResult_throws_on_timeout (fun _ => "Timeout exceeded")
                  (Scripted.scripted Scripted.silent_login) 0 10000)
           TimeoutError 10000).
  reflexivity.
Defined.

(** [isUserLoggedIn] never throws; it stops at the first probe that
    succeeds (when the user menu shows, that one wait is the only call)
    and answers [false] only after all three probes. *)
Theorem isUserLoggedIn_short_circuits (E : engine) (w : World E) :
  (exists b, fst (run E HeaderComponent.isUserLoggedIn w) = Returns b)
  /\ (fulfilled E w
        (waitFor (BaseComponent.locate HeaderComponent.header HeaderComponent.userMenu)
           (Some visible) 5000) ->
      fst (run E HeaderComponent.isUserLoggedIn w) = Returns true
      /\ calls E HeaderComponent.isUserLoggedIn w
         = [Wait (waitFor (BaseComponent.locate HeaderComponent.header
                             HeaderComponent.userMenu) (Some visible) 5000)])
  /\ (fst (run E HeaderComponent.isUserLoggedIn w) = Returns false ->
      calls E HeaderComponent.isUserLoggedIn w
      = map (fun sel => Wait (waitFor (BaseComponent.locate HeaderComponent.header sel)
                                (Some visible) 5000))
          [HeaderComponent.userMenu; HeaderComponent.logoutButton;
           HeaderComponent.userName]).
Proof.
  unfold HeaderComponent.isUserLoggedIn, BaseComponent.isElementVisible.
  repeat split.
  - simpl. destruct (perform E _ w) as [[[]|e] w1]; simpl; [eauto|].
    destruct (perform E _ w1) as [[[]|e1] w2]; simpl; [eauto|].
    destruct (perform E _ w2) as [[[]|e2] w3]; simpl; eauto.
  - destruct H as (w1 & H). simpl. now rewrite H.
  - destruct H as (w1 & H). simpl. now rewrite H.
  - simpl. destruct (perform E _ w) as [[[]|e] w1]; simpl; [discriminate|].
    destruct (perform E _ w1) as [[[]|e1] w2]; simpl; [discriminate|].
    destruct (perform E _ w2) as [[[]|e2] w3]; simpl; [discriminate|reflexivity].
Qed.

Lemma isUserLoggedIn_short_circuits_witness :
  calls (Scripted.scripted Scripted.late_banner) HeaderComponent.isUserLoggedIn 0
  = map (fun sel => Wait (waitFor (BaseComponent.locate HeaderComponent.header sel)
                            (Some visible) 5000))
      [HeaderComponent.userMenu; HeaderComponent.logoutButton;
       HeaderComponent.userName].
Proof.
  apply (proj2 (proj2 (isUserLoggedIn_short_circuits
                         (Scripted.scripted Scripted.late_banner) 0))).
  reflexivity.
Defined.

(** [clickUserMenu] clicks at most once, whatever the engine answers: the
    avatar is tried only when the menu does not show. *)
Theorem clickUserMenu_clicks_at_most_once (E : engine) (w : World E) :
  (List.length (filter is_click (calls E HeaderComponent.clickUserMenu w)) <= 1)%nat.
Proof.
  unfold HeaderComponent.clickUserMenu, BaseComponentRest.waitForVisible,
    BaseComponent.isElementVisible, BaseComponentRest.click_in.
  simpl.
  destruct (perform E _ w) as [[[]|e] w1]; simpl; [|lia].
  destruct (perform E _ w1) as [[[]|e1] w2]; simpl.
  - destruct (perform E _ w2) as [r w3]. destruct r; simpl; lia.
  - destruct (perform E _ w2) as [[[]|e2] w3]; simpl; [|lia].
    destruct (perform E _ w3) as [r w4]. destruct r; simpl; lia.
Qed.

End OutcomeFacts.

(* ===================================================================== *)
(** ** Clicks behind a probe, clicks behind a wait *)
(* ===================================================================== *)

Module ClickFacts.

Import RunFacts Calls BaseComponent BaseComponentRest.

(** The optional links of the pages are clicked behind a probe: when the
    sign-up link or the reset button does not show, [clickSignUpLink] and
    [clickReset] return after the probe, without a click.  The forgotten
    password link is clicked behind a wait: when it does not show,
    [clickForgotPassword] throws the rejection of the wait and does not
    click. *)
Theorem optional_links_are_skipped (E : engine) (w : World E) :
  (rejected E w (waitForSelector LoginPageRest.signUpLink (Some visible) 5000) ->
   fst (run E LoginPageRest.clickSignUpLink w) = Returns tt
   /\ calls E LoginPageRest.clickSignUpLink w
      = [Wait (waitForSelector LoginPageRest.signUpLink (Some visible) 5000)])
  /\ (rejected E w (waitForSelector ContactPageRest.resetButton (Some visible) 5000) ->
      fst (run E ContactPageRest.clickReset w) = Returns tt
      /\ calls E ContactPageRest.clickReset w
         = [Wait (waitForSelector ContactPageRest.resetButton (Some visible) 5000)])
  /\ (forall e w1,
        perform E (Wait (waitForSelector LoginPageRest.forgotPasswordLink
                           (Some visible) 10000)) w = (Throws e, w1) ->
        run E LoginPageRest.clickForgotPassword w = (Throws e, w1)
        /\ calls E LoginPageRest.clickForgotPassword w
           = [Wait (waitForSelector LoginPageRest.forgotPasswordLink
                      (Some visible) 10000)]).
Proof.
  repeat split.
  - destruct H as (e & w1 & H).
    unfold LoginPageRest.clickSignUpLink. simpl. now rewrite H.
  - destruct H as (e & w1 & H).
    unfold LoginPageRest.clickSignUpLink. simpl. now rewrite H.
  - destruct H as (e & w1 & H).
    unfold ContactPageRest.clickReset. simpl. now rewrite H.
  - destruct H as (e & w1 & H).
    unfold ContactPageRest.clickReset. simpl. now rewrite H.
  - unfold LoginPageRest.clickForgotPassword. simpl.
    unfold BasePage.default_timeout. now rewrite H.
  - unfold LoginPageRest.clickForgotPassword. simpl.
    unfold BasePage.default_timeout. now rewrite H.
Qed.

Lemma optional_links_are_skipped_witness :
  fst (run (Scripted.scripted Scripted.silent_login)
         LoginPageRest.clickSignUpLink 0) = Returns tt
  /\ run (Scripted.scripted Scripted.silent_login)
       LoginPageRest.clickForgotPassword 0 = (Throws TimeoutError, 10000).
Proof.
  destruct (optional_links_are_skipped (Scripted.scripted Scripted.silent_login) 0)
    as (Hsign & _ & Hforgot).
  split.
  - apply Hsign. exists TimeoutError, 5000. reflexivity.
  - apply (Hforgot TimeoutError 10000). reflexivity.
Defined.

(** Every action of the header first waits for the header itself.  When
    the header does not show within the 10 seconds, the guarded actions
    ([navigateToAbout], [clickLogin], [clickLogout], [clickUserMenu]) and
    the unguarded ones ([clickLogo], [navigateToHome]) all throw that
    rejection without a probe or a click; when the header shows and the
    guarded link does not, the guarded actions return without a click. *)
Theorem header_actions_need_the_header (E : engine) (w : World E) (link : selector) :
  (forall e w1,
     perform E (Wait (waitFor (root HeaderComponent.header) (Some visible) 10000)) w
     = (Throws e, w1) ->
     run E (HeaderComponent.click_if_shown link) w = (Throws e, w1)
     /\ run E HeaderComponent.clickUserMenu w = (Throws e, w1)
     /\ run E HeaderComponent.clickLogo w = (Throws e, w1)
     /\ run E HeaderComponent.navigateToHome w = (Throws e, w1)
     /\ filter is_click (calls E (HeaderComponent.click_if_shown link) w) = []
     /\ filter is_click (calls E HeaderComponent.clickUserMenu w) = [])
  /\ (forall w1,
        perform E (Wait (waitFor (root HeaderComponent.header) (Some visible) 10000)) w
        = (Returns tt, w1) ->
        rejected E w1 (waitFor (locate HeaderComponent.header link) (Some visible) 5000) ->
        fst (run E (HeaderComponent.click_if_shown link) w) = Returns tt
        /\ filter is_click (calls E (HeaderComponent.click_if_shown link) w) = []).
Proof.
  split.
  - intros e w1 H.
    unfold HeaderComponent.click_if_shown, HeaderComponent.clickUserMenu,
      HeaderComponent.clickLogo, HeaderComponent.navigateToHome, waitForVisible.
    simpl. simpl in H. rewrite H. repeat split.
  - intros w1 H (e & w2 & Hprobe).
    unfold HeaderComponent.click_if_shown, waitForVisible, isElementVisible.
    simpl. simpl in H, Hprobe. rewrite H. simpl. rewrite Hprobe. now split.
Qed.

Lemma header_actions_need_the_header_witness :
  run (Scripted.scripted Scripted.late_banner) HeaderComponent.clickLogin 0
  = (Throws TimeoutError, 10000).
Proof.
  apply (proj1 (header_actions_need_the_header
                  (Scripted.scripted Scripted.late_banner) 0
                  HeaderComponent.loginButton) TimeoutError 10000).
  reflexivity.
Defined.

End ClickFacts.

(* ===================================================================== *)
(** ** Generated test data *)
(* ===================================================================== *)

Module TestDataFacts.

Import TestData.

Lemma length_app (s t : string) :
  String.length (s ++ t) = (String.length s + String.length t)%nat.
Proof. induction s as [|c s IH]; simpl; [reflexivity|now rewrite IH]. Qed.

Lemma chars_app (s t : string) :
  list_ascii_of_string (s ++ t)
  = (list_ascii_of_string s ++ list_ascii_of_string t)%list.
Proof. induction s as [|c s IH]; simpl; [reflexivity|now rewrite IH]. Qed.

Lemma get_inside (s : string) (n : nat) :
  (n < String.length s)%nat ->
  exists c, String.get n s = Some c /\ In c (list_ascii_of_string s).
Proof.
  revert n. induction s as [|a s IH]; simpl; intros n Hn; [lia|].
  destruct n as [|n]; [exists a; auto|].
  destruct (IH n) as (c & Hc & Hin); [lia|]. exists c. auto.
Qed.

(** A draw inside the alphabet gives one of its characters. *)
Lemma charAt_inside (i : Z) :
  0 <= i < 62 ->
  exists c, charAt characters i = String c ""
            /\ In c (list_ascii_of_string characters).
Proof.
  intros Hi. unfold charAt.
  destruct (Z.ltb_spec i 0) as [Hneg|_]; [lia|].
  destruct (get_inside characters (Z.to_nat i)) as (c & -> & Hin).
  - change (String.length characters) with 62%nat. lia.
  - exists c. auto.
Qed.

Section Draws.
Variable draw : nat -> Z.
Hypothesis draw_in_range : forall i, 0 <= draw i < 62.

Lemma random_loop_spec (turns i : nat) (result : string) :
  String.length (random_loop draw turns i result)
  = (String.length result + turns)%nat
  /\ forall c, In c (list_ascii_of_string (random_loop draw turns i result)) ->
               In c (list_ascii_of_string result)
               \/ In c (list_ascii_of_string characters).
Proof.
  revert i result. induction turns as [|turns IH]; intros i result; simpl.
  - split; [lia|auto].
  - destruct (charAt_inside (draw i) (draw_in_range i)) as (c0 & Hc0 & Hin0).
    destruct (IH (S i) (result ++ charAt characters (draw i))) as [Hlen Hchars].
    split.
    + rewrite Hlen, length_app, Hc0. simpl. lia.
    + intros c Hc. apply Hchars in Hc as [Hc|Hc]; [|now right].
      rewrite chars_app, Hc0 in Hc. simpl in Hc.
      apply in_app_or in Hc as [Hc|[<-|[]]]; auto.
Qed.

End Draws.

(** With every draw inside the alphabet, as [Math.random] makes it,
    [generateRandomString(length)] is a string of exactly [length]
    characters, each of them a letter or a digit of the alphabet; for a
    length of 0 or less it is the empty string. *)
Theorem generateRandomString_shape (draw : nat -> Z) (length : Z) :
  (forall i, 0 <= draw i < 62) ->
  String.length (generateRandomString draw length) = Z.to_nat length
  /\ (forall c, In c (list_ascii_of_string (generateRandomString draw length)) ->
                In c (list_ascii_of_string characters))
  /\ (length <= 0 -> generateRandomString draw length = "").
Proof.
  intros Hdraw. unfold generateRandomString.
  destruct (random_loop_spec draw Hdraw (Z.to_nat length) 0 "") as [Hlen Hchars].
  split; [exact Hlen|]. split.
  - intros c Hc. apply Hchars in Hc as [[]|Hc]. exact Hc.
  - intros Hle. replace (Z.to_nat length) with 0%nat by lia. reflexivity.
Qed.

Lemma generateRandomString_shape_witness :
  String.length (generateRandomString (fun i => Z.of_nat i * 7 mod 62) 10) = 10%nat.
Proof.
  refine (proj1 (generateRandomString_shape (fun i => Z.of_nat i * 7 mod 62) 10 _)).
  intros i. apply Z.mod_pos_bound. lia.
Defined.

Lemma chars_toLowerCase (s : string) :
  list_ascii_of_string (toLowerCase s) = map lower (list_ascii_of_string s).
Proof. induction s as [|c s IH]; simpl; [reflexivity|now rewrite IH]. Qed.

Lemma length_toLowerCase (s : string) :
  String.length (toLowerCase s) = String.length s.
Proof. induction s as [|c s IH]; simpl; [reflexivity|now rewrite IH]. Qed.

Lemma lower_of_alphabet (c : ascii) :
  In c (list_ascii_of_string characters) ->
  In (lower c) (list_ascii_of_string lower_characters).
Proof.
  intros H. simpl in H.
  repeat (destruct H as [<-|H]; [vm_compute; tauto|]).
  contradiction.
Qed.

(** With every draw inside the alphabet, [generateRandomEmail(domain)] is
    a local part of exactly eight lower-case letters and digits, an [@],
    and the domain (the default domain when none is given). *)
Theorem generateRandomEmail_shape (draw : nat -> Z) (domain : value) :
  (forall i, 0 <= draw i < 62) ->
  exists username,
    generateRandomEmail draw domain
    = username ++ "@" ++ js_toString (default_param domain (VStr "example.com"))
    /\ String.length username = 8%nat
    /\ forall c, In c (list_ascii_of_string username) ->
                 In c (list_ascii_of_string lower_characters).
Proof.
  intros Hdraw. unfold generateRandomEmail.
  destruct (random_loop_spec draw Hdraw 8 0 "") as [Hlen Hchars].
  exists (toLowerCase (generateRandomString draw 8)).
  split; [reflexivity|]. split.
  - rewrite length_toLowerCase. exact Hlen.
  - intros c Hc. rewrite chars_toLowerCase in Hc.
    apply in_map_iff in Hc as (c0 & <- & Hc0).
    apply lower_of_alphabet.
    apply Hchars in Hc0 as [[]|Hc0]. exact Hc0.
Qed.

Lemma generateRandomEmail_shape_witness :
  exists username,
    generateRandomEmail (fun i => Z.of_nat i * 7 mod 62) VUndefined
    = username ++ "@" ++ "example.com"
    /\ String.length username = 8%nat
    /\ forall c, In c (list_ascii_of_string username) ->
                 In c (list_ascii_of_string lower_characters).
Proof.
  apply (generateRandomEmail_shape (fun i => Z.of_nat i * 7 mod 62) VUndefined).
  intros i. apply Z.mod_pos_bound. lia.
Defined.

End TestDataFacts.

(* ===================================================================== *)
(** ** Instances *)
(* ===================================================================== *)

Module Instances.

Import ApiHelpers Samples.

Lemma invalid_result_has_error_witness :
  ["Missing required field: message";
   "Message field should be a non-empty string"] <> [].
Proof.
  apply (InvariantFacts.invalid_result_has_error IsoDate.parse clock
           response_without_message expected_admin
           {| isValid := false;
              errors := ["Missing required field: message";
                         "Message field should be a non-empty string"];
              warnings := [] |});
    [vm_compute; reflexivity | reflexivity].
Defined.

Lemma unknown_key_falls_back_witness :
  UserCredentials.getUserCredentials (VStr "guest")
  = Returns UserCredentials.validUser.
Proof.
  apply (proj1 (CredentialFacts.unknown_key_falls_back "guest" eq_refl)).
  simpl. intros H.
  repeat (destruct H as [H|H]; [discriminate H|]). exact H.
Defined.

Lemma rootless_component_is_visible_witness :
  run (Scripted.scripted Scripted.late_banner)
    (BaseComponent.isVisible {| BaseComponent.rootSelector := None |}) 0
  = (Returns true, 0).
Proof.
  apply (proj1 (PageFacts.rootless_component_is_visible
                  (Scripted.scripted Scripted.late_banner) 0
                  {| BaseComponent.rootSelector := None |} eq_refl)).
Defined.

Lemma composite_actions_return_nothing_witness :
  fst (run (Scripted.scripted Scripted.silent_login)
         (LoginPage.login (VStr "user@example.com") (VStr "secret") (VBool true)) 0)
  = Returns tt.
Proof.
  apply (proj1 (PageFacts.composite_actions_return_nothing
                  (Scripted.scripted Scripted.silent_login) 0 5000)).
  reflexivity.
Defined.

End Instances.
